(** * minitorch/datasets.py: synthetic 2D classification datasets

    A shallow embedding of [src/minitorch/datasets.py] and the properties
    of its six generators and of its name-to-generator dictionary.

    - Python [float] is IEEE binary64: Rocq's primitive [float], with the
      same literals ([0.5], [0.2], ...: nearest binary64 value) and the
      same operations and comparisons.
    - Python [int] is unbounded: [Z]; [//] by a positive literal is
      [Z.div] (floor).
    - [random.random()] reads and advances the generator's hidden state:
      the state is passed explicitly, and the generator itself is a
      parameter of the development.
    - [math.cos] and [math.sin] are parameters as well, total functions
      on floats (they raise on an infinite argument only, and [spiral]
      applies them to 10 times a quotient of two converted ints, the
      divisor at least 1).
    - A call either returns or raises: [outcome].  The exceptions are
      those of the operations the module uses: [float()] of an int out of
      the binary64 range, a division by zero, a missing dictionary key.
      Limits of memory are not modelled. *)

From Stdlib Require Import ZArith List Lia Floats.
From stdpp Require Import base option list gmap strings.

Set Warnings "-inexact-float".

Local Open Scope Z_scope.

(** ** Exceptions and outcomes *)

(** The built-in exceptions that the operations used by the module can
    raise. *)
Inductive exception : Type :=
  | ZeroDivisionError
  | OverflowError
  | KeyError (key : string).

Definition class_name (e : exception) : string :=
  match e with
  | ZeroDivisionError => "ZeroDivisionError"
  | OverflowError => "OverflowError"
  | KeyError _ => "KeyError"
  end.

Inductive outcome (A : Type) : Type :=
  | Returns (a : A)
  | Raises (e : exception).

Arguments Returns {A} a.
Arguments Raises {A} e.

(** [raises_class c o]: the call failed with an exception of class [c]. *)
Definition raises_class {A : Type} (c : string) (o : outcome A) : Prop :=
  exists e, o = Raises e /\ class_name e = c.

(** ** The data model *)

(** A point is a pair [(x1, x2)] of floats. *)
Abbreviation point := (float * float)%type.

(** [class Graph]: the fields [N], [X] and [y], in the order of the
    constructor call [Graph(N, X, y)]. *)
Record Graph : Type := mkGraph {
  N : Z;
  X : list point;
  y : list Z
}.

(** ** Built-in operations *)

(** [range(a, b)] as the list of its values; empty when [b <= a]. *)
Definition range (a b : Z) : list Z :=
  map (fun k => a + Z.of_nat k) (seq 0 (Z.to_nat (b - a))).

(** [[v] * k]: [k] copies of [v], none when [k <= 0]. *)
Definition list_mul {A : Type} (v : A) (k : Z) : list A :=
  repeat v (Z.to_nat k).

(** Round-to-nearest-even conversion of an integer to binary64. *)
Definition float_of_Z (i : Z) : float :=
  SF2Prim (binary_normalize prec emax i 0 false).

(** The least magnitude that rounds to [2^1024], that is, out of the
    binary64 range: halfway between the largest finite value
    [2^1024 - 2^971] and [2^1024]. *)
Definition DBL_OVERFLOW : Z := 2 ^ 1024 - 2 ^ 970.

(** ** Computations: state of the random generator, and exceptions *)

Section Computations.

(** The state of the random generator. *)
Variable rng : Type.

Definition M (A : Type) : Type := rng -> outcome A * rng.

Definition ret {A : Type} (a : A) : M A := fun s => (Returns a, s).

Definition raise {A : Type} (e : exception) : M A := fun s => (Raises e, s).

Definition bind {A B : Type} (m : M A) (f : A -> M B) : M B :=
  fun s =>
    match m s with
    | (Returns a, s') => f a s'
    | (Raises e, s') => (Raises e, s')
    end.

(** [for b in l: a = f(a, b)] *)
Fixpoint foldM {A B : Type} (f : A -> B -> M A) (l : list B) (a : A) : M A :=
  match l with
  | [] => ret a
  | b :: l' => bind (f a b) (foldM f l')
  end.

(** [[f(a) for a in l]] *)
Fixpoint mapM {A B : Type} (f : A -> M B) (l : list A) : M (list B) :=
  match l with
  | [] => ret []
  | a :: l' => bind (f a) (fun b => bind (mapM f l') (fun bs => ret (b :: bs)))
  end.

(** [m] returns, from state [s], a value that satisfies [P]. *)
Definition returns {A : Type} (m : M A) (s : rng) (P : A -> Prop) : Prop :=
  exists a s', m s = (Returns a, s') /\ P a.

End Computations.

Arguments ret {rng A} a.
Arguments raise {rng A} e.
Arguments bind {rng A B} m f.
Arguments foldM {rng A B} f l a.
Arguments mapM {rng A B} f l.
Arguments returns {rng A} m s P.

Declare Scope comp_scope.
Delimit Scope comp_scope with comp.
Notation "x <- m ;; k" := (bind m (fun x => k))
  (at level 100, m at next level, right associativity) : comp_scope.

(** [float(i)]: [OverflowError] when [i] is too large for a binary64. *)
Definition float_of_int {rng : Type} (i : Z) : M rng float :=
  if Z.abs i <? DBL_OVERFLOW then ret (float_of_Z i) else raise OverflowError.

(** [a / b] for a float [a] and an int [b]: [b] is converted to a float,
    and a zero divisor raises [ZeroDivisionError] (the converted divisor
    is zero exactly when [b] is). *)
Definition truediv {rng : Type} (a : float) (b : Z) : M rng float :=
  (fb <- float_of_int b ;;
   if b =? 0 then raise ZeroDivisionError else ret (a / fb)%float)%comp.

(** ** The generators *)

Section Generators.

Variable rng : Type.

(** [random.random()] *)
Variable random : rng -> float * rng.

(** [math.cos], [math.sin] *)
Variables cos sin : float -> float.

Local Open Scope comp_scope.

Definition random_random : M rng float :=
  fun s => let (v, s') := random s in (Returns v, s').

Definition make_pts (N : Z) : M rng (list point) :=
  foldM (fun X (_ : Z) =>
           x_1 <- random_random ;;
           x_2 <- random_random ;;
           ret (X ++ [(x_1, x_2)]))
        (range 0 N) [].

Definition simple (N : Z) : M rng Graph :=
  X <- make_pts N ;;
  let y :=
    fold_left (fun y '(x_1, x_2) =>
                 let y1 := if (x_1 <? 0.5)%float then 1 else 0 in
                 y ++ [y1])
              X [] in
  ret (mkGraph N X y).

Definition diag (N : Z) : M rng Graph :=
  X <- make_pts N ;;
  let y :=
    fold_left (fun y '(x_1, x_2) =>
                 let y1 := if (x_1 + x_2 <? 0.5)%float then 1 else 0 in
                 y ++ [y1])
              X [] in
  ret (mkGraph N X y).

Definition split (N : Z) : M rng Graph :=
  X <- make_pts N ;;
  let y :=
    fold_left (fun y '(x_1, x_2) =>
                 let y1 :=
                   if ((x_1 <? 0.2) || (0.8 <? x_1))%float then 1 else 0 in
                 y ++ [y1])
              X [] in
  ret (mkGraph N X y).

(** [a > b] on floats is [b < a]; [and] binds tighter than [or]. *)
Definition xor (N : Z) : M rng Graph :=
  X <- make_pts N ;;
  let y :=
    fold_left (fun y '(x_1, x_2) =>
                 let y1 :=
                   if ((x_1 <? 0.5) && (0.5 <? x_2)
                       || (0.5 <? x_1) && (x_2 <? 0.5))%float
                   then 1 else 0 in
                 y ++ [y1])
              X [] in
  ret (mkGraph N X y).

Definition circle (N : Z) : M rng Graph :=
  X <- make_pts N ;;
  let y :=
    fold_left (fun y '(x_1, x_2) =>
                 let '(x1, x2) := (x_1 - 0.5, x_2 - 0.5)%float in
                 let y1 := if (0.1 <? x1 * x1 + x2 * x2)%float then 1 else 0 in
                 y ++ [y1])
              X [] in
  ret (mkGraph N X y).

(** In each component of a point the quotient [float(i) / (N // 2)] is
    evaluated anew, left to right. *)
Definition spiral (N : Z) : M rng Graph :=
  let x (t : float) : float := (t * cos t / 20.0)%float in
  let y (t : float) : float := (t * sin t / 20.0)%float in
  X <- mapM (fun i =>
               a <- float_of_int i ;;
               q <- truediv a (N / 2) ;;
               b <- float_of_int i ;;
               r <- truediv b (N / 2) ;;
               ret (x (10.0 * q) + 0.5, y (10.0 * r) + 0.5)%float)
            (range (5 + 0) (5 + N / 2)) ;;
  X' <- mapM (fun i =>
                a <- float_of_int i ;;
                q <- truediv a (N / 2) ;;
                b <- float_of_int i ;;
                r <- truediv b (N / 2) ;;
                ret (y (-10.0 * q) + 0.5, x (-10.0 * r) + 0.5)%float)
             (range (5 + 0) (5 + N / 2)) ;;
  let X := X ++ X' in
  let y2 := list_mul 0 (N / 2) ++ list_mul 1 (N / 2) in
  ret (mkGraph N X y2).

(** The dictionary [datasets], built entry by entry as the literal is. *)
Definition datasets : gmap string (Z -> M rng Graph) :=
  insert "Spiral" spiral
    (insert "Circle" circle
       (insert "Xor" xor
          (insert "Split" split
             (insert "Diag" diag
                (insert "Simple" simple empty))))).

End Generators.

(** [d[key]]: the value stored under [key], or [KeyError]. *)
Definition dict_getitem {V : Type} (d : gmap string V) (key : string)
  : outcome V :=
  match d !! key with
  | Some v => Returns v
  | None => Raises (KeyError key)
  end.

(** The invariant of the data model: both sequences have [count]
    elements, where [count] is the field [N]. *)
Definition Graph_invariant (g : Graph) : Prop :=
  Z.of_nat (length (X g)) = N g /\ Z.of_nat (length (y g)) = N g.

(** A label is the integer 0 or the integer 1. *)
Definition is_label (l : Z) : Prop := l = 0 \/ l = 1.

(** The six keys of [datasets]. *)
Definition pattern_names : list string :=
  ["Simple"; "Diag"; "Split"; "Xor"; "Circle"; "Spiral"]%string.

(** ** A replayed random source

    For running the generators on concrete inputs: the state is the tape
    of the values still to be drawn. *)
Module Replay.

Definition rng : Type := list float.

Definition random (s : rng) : float * rng :=
  match s with
  | [] => (0%float, [])
  | v :: s' => (v, s')
  end.

(** Polynomial stand-ins for [math.cos] and [math.sin]. *)
Definition cos (t : float) : float :=
  (1 - t * t / 2 + t * t * t * t / 24)%float.

Definition sin (t : float) : float :=
  (t - t * t * t / 6 + t * t * t * t * t / 120)%float.

End Replay.

(** ** The values drawn from the random generator *)

(** The next [k] values of [random.random()] from a state, in the order
    drawn, and the state after them. *)
Fixpoint draws {rng : Type} (random : rng -> float * rng) (k : nat) (s : rng)
  : list float * rng :=
  match k with
  | O => ([], s)
  | S k' =>
      let (v, s1) := random s in
      let (vs, s2) := draws random k' s1 in
      (v :: vs, s2)
  end.

(** Consecutive values taken two by two. *)
Fixpoint pair_up (vs : list float) : list point :=
  match vs with
  | a :: b :: vs' => (a, b) :: pair_up vs'
  | _ => []
  end.

(** [0.0 <= v < 1.0], the range of [random.random()]. *)
Definition in_unit_interval (v : float) : Prop :=
  (0 <=? v)%float = true /\ (v <? 1)%float = true.

(** The shape shared by the five sampled generators: the dataset is
    what [make_pts] returns, with the count asked for and one label [f p]
    per point [p]. *)
Definition sampled_by {rng : Type} (random : rng -> float * rng)
    (gen : Z -> M rng Graph) (f : point -> Z) : Prop :=
  forall (n : Z) (s s' : rng) (pts : list point),
    make_pts rng random n s = (Returns pts, s') ->
    gen n s = (Returns (mkGraph n pts (map f pts)), s').

(** A source that alternates between two values of the unit interval. *)
Module Alternating.

Definition rng : Type := bool.

Definition random (s : rng) : float * rng :=
  ((if s then 0.75 else 0.25)%float, negb s).

End Alternating.

(** ** Running the generators on concrete inputs *)

Example simple_3 :
  simple _ Replay.random 3 [0.3; 0.9; 0.7; 0.1; 0.5; 0.5]%float
  = (Returns (mkGraph 3 [(0.3, 0.9); (0.7, 0.1); (0.5, 0.5)]%float [1; 0; 0]),
     []).
Proof. vm_compute. reflexivity. Qed.

Example diag_2 :
  diag _ Replay.random 2 [0.1; 0.1; 0.4; 0.4]%float
  = (Returns (mkGraph 2 [(0.1, 0.1); (0.4, 0.4)]%float [1; 0]), []).
Proof. vm_compute. reflexivity. Qed.

Example split_2 :
  split _ Replay.random 2 [0.1; 0.5; 0.5; 0.5]%float
  = (Returns (mkGraph 2 [(0.1, 0.5); (0.5, 0.5)]%float [1; 0]), []).
Proof. vm_compute. reflexivity. Qed.

Example spiral_10_labels :
  exists pts,
    spiral Replay.rng Replay.cos Replay.sin 10 []
    = (Returns (mkGraph 10 pts [0; 0; 0; 0; 0; 1; 1; 1; 1; 1]), [])
    /\ length pts = 10%nat.
Proof. eexists. split; [vm_compute; reflexivity | reflexivity]. Qed.

(** [DBL_OVERFLOW] is where the rounded conversion leaves the finite
    floats, and [-0.0], the only other zero, is not the image of an int. *)
Example DBL_OVERFLOW_is_least :
  float_of_Z DBL_OVERFLOW = infinity
  /\ float_of_Z (DBL_OVERFLOW - 1) = 0x1.fffffffffffffp+1023%float
  /\ float_of_Z (- DBL_OVERFLOW) = neg_infinity
  /\ float_of_Z 0 = 0%float.
Proof. repeat split; vm_compute; reflexivity. Qed.

(** ** Lists and loops *)

Lemma range_length (a b : Z) : length (range a b) = Z.to_nat (b - a).
Proof. unfold range. now rewrite length_map, length_seq. Qed.

Lemma range_empty (a b : Z) : b <= a -> range a b = [].
Proof.
  intros Hle. unfold range.
  replace (Z.to_nat (b - a)) with 0%nat by lia. reflexivity.
Qed.

Lemma range_lookup (a b : Z) (k : nat) :
  (k < Z.to_nat (b - a))%nat -> range a b !! k = Some (a + Z.of_nat k).
Proof.
  intros Hk. unfold range.
  rewrite list_lookup_fmap, lookup_seq_lt by exact Hk. reflexivity.
Qed.

Lemma range_cons (a b : Z) : a < b -> range a b = a :: range (a + 1) b.
Proof.
  intros Hlt. unfold range.
  replace (Z.to_nat (b - a)) with (S (Z.to_nat (b - (a + 1)))) by lia.
  cbn [seq map]. f_equal; [lia|].
  rewrite <- seq_shift, map_map. apply map_ext. intros k. lia.
Qed.

Lemma range_bounds (a b i : Z) : In i (range a b) -> a <= i < b.
Proof.
  unfold range. rewrite in_map_iff. intros (k & <- & Hk).
  apply in_seq in Hk. lia.
Qed.

(** The labelling loops append one label per point, in order. *)
Lemma append_loop_map {A B : Type} (body : list B -> A -> list B)
    (f : A -> B) :
  (forall acc a, body acc a = acc ++ [f a]) ->
  forall l acc, fold_left body l acc = acc ++ map f l.
Proof.
  intros Hbody l. induction l as [|a l IH]; intros acc; cbn.
  - now rewrite app_nil_r.
  - rewrite IH, Hbody, <- app_assoc. reflexivity.
Qed.

Lemma list_mul_length {A : Type} (v : A) (k : Z) :
  length (list_mul v k) = Z.to_nat k.
Proof. apply repeat_length. Qed.

Lemma list_mul_nonpos {A : Type} (v : A) (k : Z) : k <= 0 -> list_mul v k = [].
Proof. intros Hk. unfold list_mul. now replace (Z.to_nat k) with 0%nat by lia. Qed.

Lemma list_mul_Forall {A : Type} (P : A -> Prop) (v : A) (k : Z) :
  P v -> Forall P (list_mul v k).
Proof.
  intros Hv. unfold list_mul. induction (Z.to_nat k); cbn; constructor; auto.
Qed.

(** ** Running a computation *)

Lemma bind_run {rng A B : Type} (m : M rng A) (f : A -> M rng B) (s : rng) :
  bind m f s
  = match m s with
    | (Returns a, s') => f a s'
    | (Raises e, s') => (Raises e, s')
    end.
Proof. reflexivity. Qed.

Lemma bind_returns {rng A B : Type} (m : M rng A) (f : A -> M rng B)
    (s s' : rng) (a : A) :
  m s = (Returns a, s') -> bind m f s = f a s'.
Proof. intros Hm. now rewrite bind_run, Hm. Qed.

Lemma bind_raises {rng A B : Type} (m : M rng A) (f : A -> M rng B)
    (s s' : rng) (e : exception) :
  m s = (Raises e, s') -> bind m f s = (Raises e, s').
Proof. intros Hm. now rewrite bind_run, Hm. Qed.

(** ** Sampling and the five sampled generators *)

Section Sampled.

Variable rng : Type.
Variable random : rng -> float * rng.

(** The sampling loop never raises and appends one point per round. *)
Lemma make_pts_loop (l : list Z) :
  forall (acc : list point) (s : rng),
  exists pts s',
    foldM (fun X (_ : Z) =>
             bind (random_random rng random) (fun x_1 =>
             bind (random_random rng random) (fun x_2 =>
             ret (X ++ [(x_1, x_2)]))))
          l acc s
    = (Returns (acc ++ pts), s')
    /\ length pts = length l.
Proof.
  induction l as [|i l IH]; intros acc s.
  - exists [], s. cbn. now rewrite app_nil_r.
  - destruct (random s) as [x_1 s1] eqn:H1.
    destruct (random s1) as [x_2 s2] eqn:H2.
    destruct (IH (acc ++ [(x_1, x_2)]) s2) as (pts & s' & Hrun & Hlen).
    exists ((x_1, x_2) :: pts), s'. split.
    + cbn [foldM]. rewrite !bind_run. unfold random_random at 1.
      rewrite H1, bind_run. unfold random_random at 1. rewrite H2.
      unfold ret at 1. cbv beta iota. rewrite Hrun, <- app_assoc. reflexivity.
    + cbn. now rewrite Hlen.
Qed.

Lemma make_pts_returns (n : Z) (s : rng) :
  exists pts s',
    make_pts rng random n s = (Returns pts, s')
    /\ length pts = Z.to_nat n.
Proof.
  destruct (make_pts_loop (range 0 n) [] s) as (pts & s' & Hrun & Hlen).
  exists pts, s'. split; [exact Hrun|].
  rewrite Hlen, range_length. f_equal. lia.
Qed.

Lemma make_pts_nonpos (n : Z) (s : rng) :
  n <= 0 -> make_pts rng random n s = (Returns [], s).
Proof.
  intros Hn. unfold make_pts. now rewrite range_empty by lia.
Qed.

(** A generator that samples and then labels point by point with [f]. *)
Lemma sampled_run (body : list Z -> point -> list Z) (f : point -> Z)
    (n : Z) (s : rng) :
  (forall acc p, body acc p = acc ++ [f p]) ->
  exists pts s',
    bind (make_pts rng random n)
         (fun X => ret (mkGraph n X (fold_left body X []))) s
    = (Returns (mkGraph n pts (map f pts)), s')
    /\ length pts = Z.to_nat n.
Proof.
  intros Hbody.
  destruct (make_pts_returns n s) as (pts & s' & Hrun & Hlen).
  exists pts, s'. split; [|exact Hlen].
  unfold bind. rewrite Hrun. unfold ret.
  now rewrite (append_loop_map body f Hbody).
Qed.

Lemma simple_run (n : Z) (s : rng) :
  exists pts s',
    simple rng random n s
    = (Returns (mkGraph n pts
         (map (fun '(x_1, _) => if (x_1 <? 0.5)%float then 1 else 0) pts)), s')
    /\ length pts = Z.to_nat n.
Proof. apply sampled_run. now intros acc [x_1 x_2]. Qed.

Lemma diag_run (n : Z) (s : rng) :
  exists pts s',
    diag rng random n s
    = (Returns (mkGraph n pts
         (map (fun '(x_1, x_2) => if (x_1 + x_2 <? 0.5)%float then 1 else 0)
              pts)), s')
    /\ length pts = Z.to_nat n.
Proof. apply sampled_run. now intros acc [x_1 x_2]. Qed.

Lemma split_run (n : Z) (s : rng) :
  exists pts s',
    split rng random n s
    = (Returns (mkGraph n pts
         (map (fun '(x_1, _) =>
                 if ((x_1 <? 0.2) || (0.8 <? x_1))%float then 1 else 0)
              pts)), s')
    /\ length pts = Z.to_nat n.
Proof. apply sampled_run. now intros acc [x_1 x_2]. Qed.

Lemma xor_run (n : Z) (s : rng) :
  exists pts s',
    xor rng random n s
    = (Returns (mkGraph n pts
         (map (fun '(x_1, x_2) =>
                 if ((x_1 <? 0.5) && (0.5 <? x_2)
                     || (0.5 <? x_1) && (x_2 <? 0.5))%float
                 then 1 else 0)
              pts)), s')
    /\ length pts = Z.to_nat n.
Proof. apply sampled_run. now intros acc [x_1 x_2]. Qed.

Lemma circle_run (n : Z) (s : rng) :
  exists pts s',
    circle rng random n s
    = (Returns (mkGraph n pts
         (map (fun '(x_1, x_2) =>
                 if (0.1 <? (x_1 - 0.5) * (x_1 - 0.5)
                            + (x_2 - 0.5) * (x_2 - 0.5))%float
                 then 1 else 0)
              pts)), s')
    /\ length pts = Z.to_nat n.
Proof. apply sampled_run. now intros acc [x_1 x_2]. Qed.

End Sampled.

(** ** Conversions, list comprehensions and the spiral *)

Lemma DBL_OVERFLOW_pos : 9 < DBL_OVERFLOW.
Proof. reflexivity. Qed.

Section Spiral.

Variable rng : Type.
Variables cos sin : float -> float.

Lemma float_of_int_returns (i : Z) (s : rng) :
  Z.abs i < DBL_OVERFLOW -> float_of_int i s = (Returns (float_of_Z i), s).
Proof.
  intros Hi. unfold float_of_int.
  now destruct (Z.ltb_spec (Z.abs i) DBL_OVERFLOW); [|lia].
Qed.

Lemma float_of_int_raises (i : Z) (s : rng) :
  DBL_OVERFLOW <= Z.abs i -> float_of_int i s = (Raises OverflowError, s).
Proof.
  intros Hi. unfold float_of_int.
  now destruct (Z.ltb_spec (Z.abs i) DBL_OVERFLOW); [lia|].
Qed.

Lemma truediv_returns (a : float) (b : Z) (s : rng) :
  b <> 0 -> Z.abs b < DBL_OVERFLOW ->
  truediv a b s = (Returns (a / float_of_Z b)%float, s).
Proof.
  intros Hb Hlt. unfold truediv.
  rewrite (bind_returns _ _ _ _ _ (float_of_int_returns b s Hlt)).
  now destruct (Z.eqb_spec b 0).
Qed.

Lemma truediv_overflow (a : float) (b : Z) (s : rng) :
  DBL_OVERFLOW <= Z.abs b -> truediv a b s = (Raises OverflowError, s).
Proof.
  intros Hb. unfold truediv.
  now rewrite (bind_raises _ _ _ _ _ (float_of_int_raises b s Hb)).
Qed.

(** A comprehension whose element expression returns [g a] for every
    [a] of the list, and leaves the state alone, returns [map g]. *)
Lemma mapM_pure {A B : Type} (f : A -> M rng B) (g : A -> B) (l : list A)
    (s : rng) :
  (forall a, In a l -> f a s = (Returns (g a), s)) ->
  mapM f l s = (Returns (map g l), s).
Proof.
  induction l as [|a l IH]; intros Hf; [reflexivity|].
  cbn [mapM map].
  rewrite (bind_returns _ _ _ _ _ (Hf a (or_introl eq_refl))).
  rewrite (bind_returns _ _ _ _ _ (IH (fun b Hb => Hf b (or_intror Hb)))).
  reflexivity.
Qed.

(** A comprehension that returns has one element per value iterated. *)
Lemma mapM_length {A B : Type} (f : A -> M rng B) (l : list A) :
  forall (s s' : rng) (bs : list B),
    mapM f l s = (Returns bs, s') -> length bs = length l.
Proof.
  induction l as [|a l IH]; intros s s' bs Hrun; cbn [mapM] in Hrun.
  - unfold ret in Hrun. now inversion Hrun.
  - rewrite bind_run in Hrun.
    destruct (f a s) as [[b|e] s1]; [|discriminate].
    rewrite bind_run in Hrun.
    destruct (mapM f l s1) as [[bs'|e] s2] eqn:Htl; [|discriminate].
    unfold ret in Hrun. inversion Hrun; subst. cbn.
    f_equal. exact (IH _ _ _ Htl).
Qed.

(** The first failing element aborts the comprehension. *)
Lemma mapM_raises_head {A B : Type} (f : A -> M rng B) (a : A) (l : list A)
    (s s' : rng) (e : exception) :
  f a s = (Raises e, s') -> mapM f (a :: l) s = (Raises e, s').
Proof. intros Hf. cbn [mapM]. now rewrite (bind_raises _ _ _ _ _ Hf). Qed.

(** One element of either comprehension of [spiral], where [c] is the
    literal [10.0] or [-10.0] and [u], [v] are the two inner functions. *)
Lemma spiral_element (c : float) (u v : float -> float) (h i : Z) (s : rng) :
  h <> 0 -> Z.abs h < DBL_OVERFLOW -> Z.abs i < DBL_OVERFLOW ->
  bind (float_of_int i) (fun a =>
  bind (truediv a h) (fun q =>
  bind (float_of_int i) (fun b =>
  bind (truediv b h) (fun r =>
  ret (u (c * q) + 0.5, v (c * r) + 0.5)%float)))) s
  = (Returns (u (c * (float_of_Z i / float_of_Z h)) + 0.5,
              v (c * (float_of_Z i / float_of_Z h)) + 0.5)%float, s).
Proof.
  intros Hh Hhlt Hi.
  rewrite (bind_returns _ _ _ _ _ (float_of_int_returns i s Hi)).
  rewrite (bind_returns _ _ _ _ _ (truediv_returns _ h s Hh Hhlt)).
  rewrite (bind_returns _ _ _ _ _ (float_of_int_returns i s Hi)).
  rewrite (bind_returns _ _ _ _ _ (truediv_returns _ h s Hh Hhlt)).
  reflexivity.
Qed.

(** [spiral] returns whenever every index converts to a float; the
    dataset is then the two curves, one after the other. *)
Lemma spiral_run (n : Z) (s : rng) :
  n / 2 + 4 < DBL_OVERFLOW ->
  spiral rng cos sin n s
  = (Returns
       (mkGraph n
          (map (fun i =>
                  let t := (10.0 * (float_of_Z i / float_of_Z (n / 2)))%float in
                  (t * cos t / 20.0 + 0.5, t * sin t / 20.0 + 0.5)%float)
               (range 5 (5 + n / 2))
           ++ map (fun i =>
                     let t := (-10.0 * (float_of_Z i / float_of_Z (n / 2)))%float in
                     (t * sin t / 20.0 + 0.5, t * cos t / 20.0 + 0.5)%float)
                  (range 5 (5 + n / 2)))
          (list_mul 0 (n / 2) ++ list_mul 1 (n / 2))), s).
Proof.
  intros Hbound. unfold spiral. cbv zeta. change (5 + 0) with 5.
  assert (Helt : forall i, In i (range 5 (5 + n / 2)) ->
            n / 2 <> 0 /\ Z.abs (n / 2) < DBL_OVERFLOW
            /\ Z.abs i < DBL_OVERFLOW).
  { intros i Hi. apply range_bounds in Hi. lia. }
  erewrite bind_returns; cycle 1.
  { apply mapM_pure. intros i Hi. destruct (Helt i Hi) as (H0 & Hh & Hlt).
    exact (spiral_element 10.0 (fun t => (t * cos t / 20.0)%float)
             (fun t => (t * sin t / 20.0)%float) (n / 2) i s H0 Hh Hlt). }
  erewrite bind_returns; cycle 1.
  { apply mapM_pure. intros i Hi. destruct (Helt i Hi) as (H0 & Hh & Hlt).
    exact (spiral_element (-10.0) (fun t => (t * sin t / 20.0)%float)
             (fun t => (t * cos t / 20.0)%float) (n / 2) i s H0 Hh Hlt). }
  reflexivity.
Qed.

(** Whatever [spiral] returns has [N // 2] points on each curve and the
    labels [[0] * (N // 2) + [1] * (N // 2)]. *)
Lemma spiral_shape (n : Z) (s s' : rng) (g : Graph) :
  spiral rng cos sin n s = (Returns g, s') ->
  N g = n
  /\ length (X g) = (Z.to_nat (n / 2) + Z.to_nat (n / 2))%nat
  /\ y g = list_mul 0 (n / 2) ++ list_mul 1 (n / 2).
Proof.
  unfold spiral. cbv zeta. change (5 + 0) with 5. intros Hrun.
  rewrite bind_run in Hrun.
  destruct (mapM _ (range 5 (5 + n / 2)) s) as [[c0|e] s0] eqn:H0;
    [|discriminate].
  rewrite bind_run in Hrun.
  destruct (mapM _ (range 5 (5 + n / 2)) s0) as [[c1|e] s1] eqn:H1;
    [|discriminate].
  unfold ret in Hrun. inversion Hrun; subst. cbn.
  apply mapM_length in H0, H1. rewrite range_length in H0, H1.
  rewrite length_app, H0, H1.
  repeat split. f_equal; f_equal; lia.
Qed.

(** When [N // 2] itself is out of the float range the first quotient
    already fails. *)
Lemma spiral_overflow (n : Z) (s : rng) :
  DBL_OVERFLOW <= n / 2 ->
  spiral rng cos sin n s = (Raises OverflowError, s).
Proof.
  intros Hbig. pose proof DBL_OVERFLOW_pos as Hpos.
  unfold spiral. cbv zeta. change (5 + 0) with 5.
  rewrite (range_cons 5) by lia.
  apply bind_raises, mapM_raises_head.
  rewrite (bind_returns _ _ _ _ _ (float_of_int_returns 5 s ltac:(lia))).
  apply bind_raises, truediv_overflow. lia.
Qed.

End Spiral.

(** ** Comparisons and signs of binary64 values *)

(** Python's [==] against a finite non-zero constant holds only for
    that very value. *)
Lemma float_eqb_finite (x c : float) (sg : bool) (m : positive) (e : Z) :
  Prim2SF c = S754_finite sg m e -> (x =? c)%float = true -> x = c.
Proof.
  intros Hc Heq. apply Prim2SF_inj.
  rewrite FloatAxioms.eqb_spec, Hc in Heq. rewrite Hc.
  unfold SFeqb in Heq.
  destruct (Prim2SF x) as [sx|sx| |sx mx ex]; cbn in Heq;
    try discriminate.
  - destruct sg; discriminate.
  - destruct sx; discriminate.
  - destruct sx, sg; try discriminate;
      destruct (Z.compare ex e) eqn:He; try discriminate;
      destruct (Pos.compare_cont Eq mx m) eqn:Hcmp; try discriminate;
      apply Z.compare_eq in He; apply Pos.compare_eq in Hcmp;
      now subst.
Qed.

Lemma SFopp_binary_round_aux (p em : Z) (sx : bool) (mx ex : Z)
    (lx : location) :
  SFopp (binary_round_aux p em sx mx ex lx)
  = binary_round_aux p em (negb sx) mx ex lx.
Proof.
  unfold binary_round_aux.
  destruct (shr_fexp p em mx ex lx) as [r1 e1].
  destruct (shr_fexp p em _ e1 loc_Exact) as [r2 e2].
  destruct (shr_m r2); [reflexivity| |reflexivity].
  now destruct (Z.leb e2 (Z.sub em p)).
Qed.

Lemma SFmul_opp_l (p em : Z) (a b : spec_float) :
  SFmul p em (SFopp a) b = SFopp (SFmul p em a b).
Proof.
  destruct a as [sa|sa| |sa ma ea], b as [sb|sb| |sb mb eb]; cbn;
    try reflexivity; try (now destruct sa, sb).
  rewrite SFopp_binary_round_aux. now destruct sa, sb.
Qed.

(** Multiplying by [-10.0] negates the product by [10.0]. *)
Lemma mul_neg_ten (q : float) : (-10.0 * q = - (10.0 * q))%float.
Proof.
  apply Prim2SF_inj.
  change (-10.0)%float with (- (10.0))%float.
  rewrite mul_spec, !opp_spec, mul_spec. apply SFmul_opp_l.
Qed.

(** ** Counts and lengths *)

Lemma sampled_lengths (n : Z) (pts : list point) (f : point -> Z) :
  length pts = Z.to_nat n ->
  let g := mkGraph n pts (map f pts) in
  N g = n
  /\ Z.of_nat (length (X g)) = Z.max 0 n
  /\ length (X g) = length (y g)
  /\ (0 <= n -> Graph_invariant g).
Proof.
  intros Hlen g. unfold Graph_invariant. cbn. rewrite length_map. lia.
Qed.

(** C1, as amended: in every dataset a generator returns, the field [N]
    is the argument and [X] and [y] have the same length, [max(0, N)] for
    the five sampled generators and [2 * max(0, N // 2)] for [spiral];
    that length is the count [N] when [N >= 0] and, for [spiral], [N] is
    also even. *)
Theorem lengths_agree :
  forall (rng : Type) (random : rng -> float * rng)
         (cos sin : float -> float) (n : Z) (s : rng),
    let sampled (g : Graph) :=
      N g = n
      /\ Z.of_nat (length (X g)) = Z.max 0 n
      /\ length (X g) = length (y g)
      /\ (0 <= n -> Graph_invariant g) in
    returns (simple rng random n) s sampled
    /\ returns (diag rng random n) s sampled
    /\ returns (split rng random n) s sampled
    /\ returns (xor rng random n) s sampled
    /\ returns (circle rng random n) s sampled
    /\ (forall g s',
          spiral rng cos sin n s = (Returns g, s') ->
          N g = n
          /\ Z.of_nat (length (X g)) = 2 * Z.max 0 (n / 2)
          /\ length (X g) = length (y g)
          /\ (0 <= n -> Z.even n = true -> Graph_invariant g)).
Proof.
  intros rng random cos sin n s sampled. unfold returns.
  repeat split.
  - destruct (simple_run rng random n s) as (pts & s' & -> & Hlen).
    eexists _, _. split; [reflexivity|]. now apply sampled_lengths.
  - destruct (diag_run rng random n s) as (pts & s' & -> & Hlen).
    eexists _, _. split; [reflexivity|]. now apply sampled_lengths.
  - destruct (split_run rng random n s) as (pts & s' & -> & Hlen).
    eexists _, _. split; [reflexivity|]. now apply sampled_lengths.
  - destruct (xor_run rng random n s) as (pts & s' & -> & Hlen).
    eexists _, _. split; [reflexivity|]. now apply sampled_lengths.
  - destruct (circle_run rng random n s) as (pts & s' & -> & Hlen).
    eexists _, _. split; [reflexivity|]. now apply sampled_lengths.
  - now destruct (spiral_shape _ _ _ _ _ _ _ H) as (HN & _ & _).
  - destruct (spiral_shape _ _ _ _ _ _ _ H) as (_ & HX & _).
    rewrite HX. lia.
  - destruct (spiral_shape _ _ _ _ _ _ _ H) as (_ & HX & ->).
    rewrite HX, length_app, !list_mul_length. reflexivity.
  - destruct (spiral_shape _ _ _ _ _ _ _ H) as (HN & HX & _).
    rewrite HX, HN. apply Zeven_bool_iff, Zeven_div2 in H1. lia.
  - destruct (spiral_shape _ _ _ _ _ _ _ H) as (HN & HX & ->).
    rewrite length_app, !list_mul_length, HN.
    apply Zeven_bool_iff, Zeven_div2 in H1. lia.
Qed.

Lemma lengths_agree_witness :
  (exists g s',
     simple Replay.rng Replay.random 2 [0.3; 0.9; 0.7; 0.1]%float
     = (Returns g, s')
     /\ Graph_invariant g)
  /\ (exists g,
        spiral Replay.rng Replay.cos Replay.sin 4 [] = (Returns g, [])
        /\ Graph_invariant g).
Proof.
  pose proof (lengths_agree Replay.rng Replay.random Replay.cos Replay.sin)
    as Hall.
  split.
  - destruct (Hall 2 [0.3; 0.9; 0.7; 0.1]%float)
      as ((g & s' & Hrun & _ & _ & _ & Hinv) & _).
    exists g, s'. split; [exact Hrun | apply Hinv; lia].
  - destruct (Hall 4 []) as (_ & _ & _ & _ & _ & Hspiral).
    eexists. split; [vm_compute; reflexivity|].
    eapply Hspiral; [vm_compute; reflexivity | lia | reflexivity].
Defined.

(** C1 as stated fails: [simple(-1)] returns a dataset with no point and
    count [-1], and [spiral(3)] one with two points and count [3]. *)
Lemma invariant_fails_negative_and_odd :
  (exists g s',
     simple Replay.rng Replay.random (-1) [] = (Returns g, s')
     /\ ~ Graph_invariant g)
  /\ (exists g s',
        spiral Replay.rng Replay.cos Replay.sin 3 [] = (Returns g, s')
        /\ length (X g) = 2%nat /\ N g = 3
        /\ ~ Graph_invariant g).
Proof.
  split.
  - eexists _, _. split; [vm_compute; reflexivity|].
    intros [HX _]. cbn in HX. lia.
  - eexists _, _. split; [vm_compute; reflexivity|].
    repeat split. intros [HX _]. cbn in HX. lia.
Qed.

(** ** Counts below the intended range *)

(** C2, as amended: no generator rejects a negative count.  Called with
    [N < 0] each of the six returns [Graph(N, [], [])], and so does each
    of the five sampled generators for [N = 0]; the random generator is
    not advanced. *)
Theorem nonpositive_count_returns_empty :
  forall (rng : Type) (random : rng -> float * rng)
         (cos sin : float -> float) (n : Z) (s : rng),
    n <= 0 ->
    simple rng random n s = (Returns (mkGraph n [] []), s)
    /\ diag rng random n s = (Returns (mkGraph n [] []), s)
    /\ split rng random n s = (Returns (mkGraph n [] []), s)
    /\ xor rng random n s = (Returns (mkGraph n [] []), s)
    /\ circle rng random n s = (Returns (mkGraph n [] []), s)
    /\ (n < 0 -> spiral rng cos sin n s = (Returns (mkGraph n [] []), s)).
Proof.
  intros rng random cos sin n s Hn.
  pose proof (make_pts_nonpos rng random n s Hn) as Hpts.
  repeat split;
    try (unfold simple, diag, split, xor, circle;
         now rewrite (bind_returns _ _ _ _ _ Hpts)).
  intros Hneg. pose proof DBL_OVERFLOW_pos.
  assert (Hhalf : n / 2 <= 0) by (Z.div_mod_to_equations; lia).
  rewrite spiral_run by lia.
  now rewrite range_empty, !list_mul_nonpos by lia.
Qed.

Lemma nonpositive_count_returns_empty_witness :
  simple Replay.rng Replay.random (-3) [0.25]%float
  = (Returns (mkGraph (-3) [] []), [0.25]%float)
  /\ circle Replay.rng Replay.random 0 [] = (Returns (mkGraph 0 [] []), [])
  /\ spiral Replay.rng Replay.cos Replay.sin (-3) []
     = (Returns (mkGraph (-3) [] []), []).
Proof.
  pose proof (nonpositive_count_returns_empty Replay.rng Replay.random
                Replay.cos Replay.sin) as Hall.
  split; [|split].
  - destruct (Hall (-3) [0.25]%float) as (Hsimple & _); [lia|].
    exact Hsimple.
  - destruct (Hall 0 []) as (_ & _ & _ & _ & Hcircle & _); [lia|].
    exact Hcircle.
  - destruct (Hall (-3) []) as (_ & _ & _ & _ & _ & Hspiral); [lia|].
    apply Hspiral. lia.
Defined.

(** C2 as stated fails: [simple(-1)] returns, it raises nothing. *)
Lemma negative_count_not_rejected :
  simple Replay.rng Replay.random (-1) [] = (Returns (mkGraph (-1) [] []), [])
  /\ ~ raises_class "InvalidCountError"
        (fst (simple Replay.rng Replay.random (-1) [])).
Proof.
  split; [reflexivity|]. intros (e & Hraise & _). discriminate Hraise.
Qed.

(** C3, as amended: [spiral] called with [N < 2] raises nothing, neither
    a count error nor [ZeroDivisionError]: the range of indices is empty
    and the call returns [Graph(N, [], [])]. *)
Theorem spiral_below_2_returns_empty :
  forall (rng : Type) (cos sin : float -> float) (n : Z) (s : rng),
    n < 2 ->
    range (5 + 0) (5 + n / 2) = []
    /\ spiral rng cos sin n s = (Returns (mkGraph n [] []), s).
Proof.
  intros rng cos sin n s Hn. pose proof DBL_OVERFLOW_pos.
  assert (Hhalf : n / 2 <= 0) by (Z.div_mod_to_equations; lia).
  split; [apply range_empty; lia|].
  rewrite spiral_run by lia.
  now rewrite range_empty, !list_mul_nonpos by lia.
Qed.

Lemma spiral_below_2_returns_empty_witness :
  spiral Replay.rng Replay.cos Replay.sin (-4) []
  = (Returns (mkGraph (-4) [] []), []).
Proof.
  destruct (spiral_below_2_returns_empty Replay.rng Replay.cos Replay.sin
              (-4) []) as (_ & Hrun); [lia|].
  exact Hrun.
Defined.

(** C3 as stated fails: [spiral(1)] returns, it raises nothing. *)
Lemma spiral_1_not_rejected :
  spiral Replay.rng Replay.cos Replay.sin 1 [] = (Returns (mkGraph 1 [] []), [])
  /\ ~ raises_class "InvalidCountError"
        (fst (spiral Replay.rng Replay.cos Replay.sin 1 [])).
Proof.
  split; [reflexivity|]. intros (e & Hraise & _). discriminate Hraise.
Qed.

(** C10: [spiral(0)] and [spiral(1)] return [Graph(N, [], [])] with the
    argument as count: [N // 2] is 0, the range [5 .. 5 + N // 2] is empty,
    and so the quotient by [N // 2] is never evaluated. *)
Theorem spiral_0_1_empty :
  forall (rng : Type) (cos sin : float -> float) (s : rng),
    0 / 2 = 0 /\ 1 / 2 = 0
    /\ range (5 + 0) (5 + 0) = []
    /\ spiral rng cos sin 0 s = (Returns (mkGraph 0 [] []), s)
    /\ spiral rng cos sin 1 s = (Returns (mkGraph 1 [] []), s).
Proof. intros. repeat split; reflexivity. Qed.

(** ** Labels *)

Lemma Forall_map_label {A : Type} (f : A -> Z) (l : list A) :
  (forall a, is_label (f a)) -> Forall is_label (map f l).
Proof. intros Hf. induction l; cbn; constructor; auto. Qed.

Lemma Forall2_map_label {A : Type} (P : A -> Z -> Prop) (f : A -> Z)
    (l : list A) :
  (forall a, P a (f a)) -> Forall2 P l (map f l).
Proof. intros Hf. induction l; cbn; constructor; auto. Qed.

Lemma if_is_label (b : bool) : is_label (if b then 1 else 0).
Proof. destruct b; [right | left]; reflexivity. Qed.

(** C9: each of the five sampled generators returns exactly [N] points
    when [N >= 0], and every label any of the six generators returns is
    0 or 1. *)
Theorem sampled_count_and_labels :
  forall (rng : Type) (random : rng -> float * rng)
         (cos sin : float -> float) (n : Z) (s : rng),
    let exact (g : Graph) :=
      (0 <= n -> Z.of_nat (length (X g)) = n) /\ Forall is_label (y g) in
    returns (simple rng random n) s exact
    /\ returns (diag rng random n) s exact
    /\ returns (split rng random n) s exact
    /\ returns (xor rng random n) s exact
    /\ returns (circle rng random n) s exact
    /\ (forall g s',
          spiral rng cos sin n s = (Returns g, s') -> Forall is_label (y g)).
Proof.
  intros rng random cos sin n s exact. unfold returns, exact.
  split; [|split; [|split; [|split; [|split]]]].
  - destruct (simple_run rng random n s) as (pts & s' & -> & Hlen).
    eexists _, _. split; [reflexivity|]. cbn. split; [lia|].
    apply Forall_map_label. intros [x_1 x_2]. apply if_is_label.
  - destruct (diag_run rng random n s) as (pts & s' & -> & Hlen).
    eexists _, _. split; [reflexivity|]. cbn. split; [lia|].
    apply Forall_map_label. intros [x_1 x_2]. apply if_is_label.
  - destruct (split_run rng random n s) as (pts & s' & -> & Hlen).
    eexists _, _. split; [reflexivity|]. cbn. split; [lia|].
    apply Forall_map_label. intros [x_1 x_2]. apply if_is_label.
  - destruct (xor_run rng random n s) as (pts & s' & -> & Hlen).
    eexists _, _. split; [reflexivity|]. cbn. split; [lia|].
    apply Forall_map_label. intros [x_1 x_2]. apply if_is_label.
  - destruct (circle_run rng random n s) as (pts & s' & -> & Hlen).
    eexists _, _. split; [reflexivity|]. cbn. split; [lia|].
    apply Forall_map_label. intros [x_1 x_2]. apply if_is_label.
  - intros g s' Hrun.
    destruct (spiral_shape _ _ _ _ _ _ _ Hrun) as (_ & _ & ->).
    apply Forall_app. split; apply list_mul_Forall; [left | right]; reflexivity.
Qed.

Lemma sampled_count_and_labels_witness :
  (exists g s',
     circle Replay.rng Replay.random 3 [0.5; 0.5; 1.0; 1.0; 0.3; 0.9]%float
     = (Returns g, s')
     /\ Z.of_nat (length (X g)) = 3 /\ Forall is_label (y g))
  /\ (exists g,
        spiral Replay.rng Replay.cos Replay.sin 5 [] = (Returns g, [])
        /\ Forall is_label (y g)).
Proof.
  pose proof (sampled_count_and_labels Replay.rng Replay.random
                Replay.cos Replay.sin) as Hall.
  split.
  - destruct (Hall 3 [0.5; 0.5; 1.0; 1.0; 0.3; 0.9]%float)
      as (_ & _ & _ & _ & (g & s' & Hrun & Hlen & Hlab) & _).
    exists g, s'. split; [exact Hrun|]. split; [apply Hlen; lia | exact Hlab].
  - destruct (Hall 5 []) as (_ & _ & _ & _ & _ & Hspiral).
    eexists. split; [vm_compute; reflexivity|].
    eapply Hspiral. vm_compute. reflexivity.
Defined.

(** C5: in every dataset [xor] returns, the label aligned with a point
    [(x1, x2)] is 1 if [(x1 < 0.5 and x2 > 0.5) or (x1 > 0.5 and
    x2 < 0.5)] and 0 otherwise; so [(0.2, 0.8)] is labelled 1 and
    [(0.2, 0.2)] is labelled 0. *)
Theorem xor_labels :
  forall (rng : Type) (random : rng -> float * rng) (n : Z) (s : rng),
    returns (xor rng random n) s (fun g =>
      Forall2 (fun '(x1, x2) l =>
                 l = if ((x1 <? 0.5) && (0.5 <? x2)
                         || (0.5 <? x1) && (x2 <? 0.5))%float
                     then 1 else 0)
              (X g) (y g)
      /\ (forall i : nat,
            X g !! i = Some (0.2, 0.8)%float -> y g !! i = Some 1)
      /\ (forall i : nat,
            X g !! i = Some (0.2, 0.2)%float -> y g !! i = Some 0)).
Proof.
  intros rng random n s. unfold returns.
  destruct (xor_run rng random n s) as (pts & s' & -> & _).
  eexists _, _. split; [reflexivity|]. cbn [X y].
  split; [|split].
  - apply Forall2_map_label. now intros [x1 x2].
  - intros i Hi. now rewrite list_lookup_fmap, Hi.
  - intros i Hi. now rewrite list_lookup_fmap, Hi.
Qed.

Lemma xor_labels_witness :
  exists g s',
    xor Replay.rng Replay.random 2 [0.2; 0.8; 0.2; 0.2]%float = (Returns g, s')
    /\ X g = [(0.2, 0.8); (0.2, 0.2)]%float
    /\ y g !! 0%nat = Some 1 /\ y g !! 1%nat = Some 0.
Proof.
  destruct (xor_labels Replay.rng Replay.random 2 [0.2; 0.8; 0.2; 0.2]%float)
    as (g & s' & Hrun & _ & H1 & H0).
  assert (HX : X g = [(0.2, 0.8); (0.2, 0.2)]%float).
  { pose proof Hrun as Hval. vm_compute in Hval. now inversion Hval. }
  exists g, s'. split; [exact Hrun|]. split; [exact HX|].
  split; [apply H1 | apply H0]; now rewrite HX.
Defined.

(** C6: in every dataset [circle] returns, the label aligned with a
    point [(x1, x2)] is 1 if [dx*dx + dy*dy > 0.1] and 0 otherwise, where
    [dx = x1 - 0.5] and [dy = x2 - 0.5]; so [(0.5, 0.5)] is labelled 0
    and [(1.0, 1.0)] is labelled 1. *)
Theorem circle_labels :
  forall (rng : Type) (random : rng -> float * rng) (n : Z) (s : rng),
    returns (circle rng random n) s (fun g =>
      Forall2 (fun '(x1, x2) l =>
                 let dx := (x1 - 0.5)%float in
                 let dy := (x2 - 0.5)%float in
                 l = if (0.1 <? dx * dx + dy * dy)%float then 1 else 0)
              (X g) (y g)
      /\ (forall i : nat,
            X g !! i = Some (0.5, 0.5)%float -> y g !! i = Some 0)
      /\ (forall i : nat,
            X g !! i = Some (1.0, 1.0)%float -> y g !! i = Some 1)).
Proof.
  intros rng random n s. unfold returns.
  destruct (circle_run rng random n s) as (pts & s' & -> & _).
  eexists _, _. split; [reflexivity|]. cbn [X y].
  split; [|split].
  - apply Forall2_map_label. now intros [x1 x2].
  - intros i Hi. now rewrite list_lookup_fmap, Hi.
  - intros i Hi. now rewrite list_lookup_fmap, Hi.
Qed.

Lemma circle_labels_witness :
  exists g s',
    circle Replay.rng Replay.random 2 [0.5; 0.5; 1.0; 1.0]%float
    = (Returns g, s')
    /\ X g = [(0.5, 0.5); (1.0, 1.0)]%float
    /\ y g !! 0%nat = Some 0 /\ y g !! 1%nat = Some 1.
Proof.
  destruct (circle_labels Replay.rng Replay.random 2
              [0.5; 0.5; 1.0; 1.0]%float) as (g & s' & Hrun & _ & H0 & H1).
  assert (HX : X g = [(0.5, 0.5); (1.0, 1.0)]%float).
  { pose proof Hrun as Hval. vm_compute in Hval. now inversion Hval. }
  exists g, s'. split; [exact Hrun|]. split; [exact HX|].
  split; [apply H0 | apply H1]; now rewrite HX.
Defined.

(** C7: the comparisons are strict, so a point on a decision boundary
    is labelled 0: [x1 == 0.5] by [simple], [x1 == 0.5] or [x2 == 0.5] by
    [xor], [x1 + x2 == 0.5] by [diag], [x1 == 0.2] or [x1 == 0.8] by
    [split], and [dx*dx + dy*dy == 0.1] by [circle]. *)
Theorem boundary_points_labelled_0 :
  forall (rng : Type) (random : rng -> float * rng) (n : Z) (s : rng),
    returns (simple rng random n) s (fun g =>
      Forall2 (fun '(x1, _) l => (x1 =? 0.5)%float = true -> l = 0)
              (X g) (y g))
    /\ returns (xor rng random n) s (fun g =>
         Forall2 (fun '(x1, x2) l =>
                    (x1 =? 0.5)%float = true \/ (x2 =? 0.5)%float = true ->
                    l = 0)
                 (X g) (y g))
    /\ returns (diag rng random n) s (fun g =>
         Forall2 (fun '(x1, x2) l => (x1 + x2 =? 0.5)%float = true -> l = 0)
                 (X g) (y g))
    /\ returns (split rng random n) s (fun g =>
         Forall2 (fun '(x1, _) l =>
                    (x1 =? 0.2)%float = true \/ (x1 =? 0.8)%float = true ->
                    l = 0)
                 (X g) (y g))
    /\ returns (circle rng random n) s (fun g =>
         Forall2 (fun '(x1, x2) l =>
                    ((x1 - 0.5) * (x1 - 0.5) + (x2 - 0.5) * (x2 - 0.5)
                     =? 0.1)%float = true ->
                    l = 0)
                 (X g) (y g)).
Proof.
  intros rng random n s. unfold returns.
  split; [|split; [|split; [|split]]].
  - destruct (simple_run rng random n s) as (pts & s' & -> & _).
    eexists _, _. split; [reflexivity|]. cbn [X y].
    apply Forall2_map_label. intros [x1 x2] Heq.
    eapply float_eqb_finite in Heq; [|vm_compute; reflexivity].
    now rewrite Heq.
  - destruct (xor_run rng random n s) as (pts & s' & -> & _).
    eexists _, _. split; [reflexivity|]. cbn [X y].
    apply Forall2_map_label. intros [x1 x2] [Heq|Heq];
      (eapply float_eqb_finite in Heq; [|vm_compute; reflexivity]);
      rewrite Heq.
    + reflexivity.
    + change (0.5 <? 0.5)%float with false.
      now rewrite !andb_false_r.
  - destruct (diag_run rng random n s) as (pts & s' & -> & _).
    eexists _, _. split; [reflexivity|]. cbn [X y].
    apply Forall2_map_label. intros [x1 x2] Heq.
    eapply float_eqb_finite in Heq; [|vm_compute; reflexivity].
    now rewrite Heq.
  - destruct (split_run rng random n s) as (pts & s' & -> & _).
    eexists _, _. split; [reflexivity|]. cbn [X y].
    apply Forall2_map_label. intros [x1 x2] [Heq|Heq];
      (eapply float_eqb_finite in Heq; [|vm_compute; reflexivity]);
      now rewrite Heq.
  - destruct (circle_run rng random n s) as (pts & s' & -> & _).
    eexists _, _. split; [reflexivity|]. cbn [X y].
    apply Forall2_map_label. intros [x1 x2] Heq.
    eapply float_eqb_finite in Heq; [|vm_compute; reflexivity].
    now rewrite Heq.
Qed.

Lemma boundary_points_labelled_0_witness :
  (exists g s',
     simple Replay.rng Replay.random 1 [0.5; 0.9]%float = (Returns g, s')
     /\ X g = [(0.5, 0.9)]%float
     /\ forall l, y g !! 0%nat = Some l -> l = 0)
  /\ (exists g s',
        diag Replay.rng Replay.random 1 [0.25; 0.25]%float = (Returns g, s')
        /\ X g = [(0.25, 0.25)]%float
        /\ forall l, y g !! 0%nat = Some l -> l = 0)
  /\ (exists g s',
        split Replay.rng Replay.random 2 [0.2; 0.1; 0.8; 0.1]%float
        = (Returns g, s')
        /\ X g = [(0.2, 0.1); (0.8, 0.1)]%float
        /\ forall (i : nat) l, y g !! i = Some l -> l = 0).
Proof.
  split; [|split].
  - destruct (boundary_points_labelled_0 Replay.rng Replay.random 1
                [0.5; 0.9]%float) as ((g & s' & Hrun & Hall) & _).
    assert (HX : X g = [(0.5, 0.9)]%float).
    { pose proof Hrun as Hval. vm_compute in Hval. now inversion Hval. }
    exists g, s'. split; [exact Hrun|]. split; [exact HX|].
    intros l Hl. rewrite HX in Hall.
    exact (Forall2_lookup_lr _ _ _ 0%nat _ _ Hall eq_refl Hl eq_refl).
  - destruct (boundary_points_labelled_0 Replay.rng Replay.random 1
                [0.25; 0.25]%float) as (_ & _ & (g & s' & Hrun & Hall) & _).
    assert (HX : X g = [(0.25, 0.25)]%float).
    { pose proof Hrun as Hval. vm_compute in Hval. now inversion Hval. }
    exists g, s'. split; [exact Hrun|]. split; [exact HX|].
    intros l Hl. rewrite HX in Hall.
    exact (Forall2_lookup_lr _ _ _ 0%nat _ _ Hall eq_refl Hl eq_refl).
  - destruct (boundary_points_labelled_0 Replay.rng Replay.random 2
                [0.2; 0.1; 0.8; 0.1]%float)
      as (_ & _ & _ & (g & s' & Hrun & Hall) & _).
    assert (HX : X g = [(0.2, 0.1); (0.8, 0.1)]%float).
    { pose proof Hrun as Hval. vm_compute in Hval. now inversion Hval. }
    exists g, s'. split; [exact Hrun|]. split; [exact HX|].
    intros i l Hl. rewrite HX in Hall.
    destruct i as [|[|i]].
    + exact (Forall2_lookup_lr _ _ _ 0%nat _ _ Hall eq_refl Hl
               (or_introl eq_refl)).
    + exact (Forall2_lookup_lr _ _ _ 1%nat _ _ Hall eq_refl Hl
               (or_intror eq_refl)).
    + apply Forall2_length in Hall. apply lookup_lt_Some in Hl.
      cbn in Hall. lia.
Defined.

(** ** The two curves of the spiral *)

(** C8, as amended: for every [N >= 2] whose indices convert to floats
    ([N // 2 + 4] below the overflow bound of [float()]), [spiral] returns
    [2 * (N // 2)] points: for each index [i] of [5 .. 5 + N // 2], in
    order, the point [(t*cos(t)/20 + 0.5, t*sin(t)/20 + 0.5)] of curve 0
    with [t = 10.0 * (i / (N // 2))], labelled 0, and after all of them,
    for the same indices, the point [(t'*sin(t')/20 + 0.5,
    t'*cos(t')/20 + 0.5)] of curve 1 with [t' = -t], labelled 1; this is
    one point fewer than [N] when [N] is odd. *)
Theorem spiral_points :
  forall (rng : Type) (cos sin : float -> float) (n : Z) (s : rng),
    2 <= n ->
    n / 2 + 4 < DBL_OVERFLOW ->
    let half := n / 2 in
    let t (i : Z) := (10.0 * (float_of_Z i / float_of_Z half))%float in
    let curve0 :=
      map (fun i => (t i * cos (t i) / 20.0 + 0.5,
                     t i * sin (t i) / 20.0 + 0.5)%float)
          (range 5 (5 + half)) in
    let curve1 :=
      map (fun i => ((- t i) * sin (- t i) / 20.0 + 0.5,
                     (- t i) * cos (- t i) / 20.0 + 0.5)%float)
          (range 5 (5 + half)) in
    spiral rng cos sin n s
    = (Returns (mkGraph n (curve0 ++ curve1)
                  (repeat 0 (Z.to_nat half) ++ repeat 1 (Z.to_nat half))), s)
    /\ Z.of_nat (length curve0) = half
    /\ Z.of_nat (length curve1) = half
    /\ Z.of_nat (length (curve0 ++ curve1)) = 2 * half
    /\ (forall k : nat,
          (k < Z.to_nat half)%nat ->
          range 5 (5 + half) !! k = Some (5 + Z.of_nat k))
    /\ (Z.odd n = true -> 2 * half = n - 1)
    /\ (Z.even n = true -> 2 * half = n).
Proof.
  intros rng cos sin n s Hn Hbound half t curve0 curve1.
  assert (Hhalf : 1 <= half) by (unfold half; Z.div_mod_to_equations; lia).
  assert (Hlen0 : Z.of_nat (length curve0) = half).
  { unfold curve0. rewrite length_map, range_length. lia. }
  assert (Hlen1 : Z.of_nat (length curve1) = half).
  { unfold curve1. rewrite length_map, range_length. lia. }
  split; [|split; [|split; [|split; [|split; [|split]]]]];
    try assumption.
  - assert (Hneg : curve1
                   = map (fun i =>
                            let t' := (-10.0 * (float_of_Z i
                                                / float_of_Z (n / 2)))%float in
                            (t' * sin t' / 20.0 + 0.5,
                             t' * cos t' / 20.0 + 0.5)%float)
                         (range 5 (5 + n / 2))).
    { apply map_ext. intros i. unfold t, half. cbv zeta.
      now rewrite mul_neg_ten. }
    rewrite spiral_run by exact Hbound. rewrite Hneg. reflexivity.
  - rewrite length_app. lia.
  - intros k Hk. apply range_lookup. lia.
  - intros Hodd. apply Zodd_bool_iff in Hodd.
    unfold half. destruct (Zodd_ex n Hodd) as (m & ->).
    Z.div_mod_to_equations. lia.
  - intros Heven. apply Zeven_bool_iff in Heven.
    unfold half. destruct (Zeven_ex n Heven) as (m & ->).
    Z.div_mod_to_equations. lia.
Qed.

Lemma spiral_points_witness :
  exists pts,
    spiral Replay.rng Replay.cos Replay.sin 7 []
    = (Returns (mkGraph 7 pts [0; 0; 0; 1; 1; 1]), [])
    /\ Z.of_nat (length pts) = 2 * 3.
Proof.
  assert (Hbound : 7 / 2 + 4 < DBL_OVERFLOW) by reflexivity.
  destruct (spiral_points Replay.rng Replay.cos Replay.sin 7 []
              ltac:(lia) Hbound) as (Hrun & _ & _ & Hlen & _).
  eexists. split; [exact Hrun | exact Hlen].
Defined.

(** C8 as stated fails for a count whose half is out of the float range:
    [spiral(2 ** 1025)] raises [OverflowError] at its first quotient. *)
Lemma spiral_huge_count_overflows :
  2 <= 2 ^ 1025
  /\ spiral Replay.rng Replay.cos Replay.sin (2 ^ 1025) []
     = (Raises OverflowError, [])
  /\ ~ (exists g s',
          spiral Replay.rng Replay.cos Replay.sin (2 ^ 1025) []
          = (Returns g, s')).
Proof.
  assert (Hbig : DBL_OVERFLOW <= 2 ^ 1025 / 2).
  { apply Z.leb_le. vm_compute. reflexivity. }
  pose proof (spiral_overflow Replay.rng Replay.cos Replay.sin _ [] Hbig)
    as Hrun.
  split; [apply Z.leb_le; vm_compute; reflexivity|].
  split; [exact Hrun|].
  intros (g & s' & Hret). rewrite Hrun in Hret. discriminate Hret.
Qed.

(** ** The dictionary of generators *)

Lemma not_in_pattern_names (name : string) :
  ~ In name pattern_names ->
  name <> "Simple"%string /\ name <> "Diag"%string /\ name <> "Split"%string
  /\ name <> "Xor"%string /\ name <> "Circle"%string
  /\ name <> "Spiral"%string.
Proof. unfold pattern_names. cbn. intuition congruence. Qed.

(** C4, as amended: [datasets] has exactly the six keys "Simple", "Diag",
    "Split", "Xor", "Circle" and "Spiral", each bound to the generator of
    that name; subscripting it with any other string, for instance with
    another capitalisation of a key, raises [KeyError] for that string. *)
Theorem datasets_lookup :
  forall (rng : Type) (random : rng -> float * rng)
         (cos sin : float -> float),
    let d := datasets rng random cos sin in
    dict_getitem d "Simple" = Returns (simple rng random)
    /\ dict_getitem d "Diag" = Returns (diag rng random)
    /\ dict_getitem d "Split" = Returns (split rng random)
    /\ dict_getitem d "Xor" = Returns (xor rng random)
    /\ dict_getitem d "Circle" = Returns (circle rng random)
    /\ dict_getitem d "Spiral" = Returns (spiral rng cos sin)
    /\ (forall name : string, is_Some (d !! name) <-> In name pattern_names)
    /\ (forall name : string,
          ~ In name pattern_names ->
          dict_getitem d name = Raises (KeyError name)).
Proof.
  intros rng random cos sin d.
  assert (Hmiss : forall name : string,
            ~ In name pattern_names -> d !! name = None).
  { intros name Hname.
    destruct (not_in_pattern_names name Hname) as (H1 & H2 & H3 & H4 & H5 & H6).
    unfold d, datasets.
    rewrite !lookup_insert_ne by congruence. apply lookup_empty. }
  split; [reflexivity|]. split; [reflexivity|]. split; [reflexivity|].
  split; [reflexivity|]. split; [reflexivity|]. split; [reflexivity|].
  split.
  - intros name. split.
    + intros Hsome.
      destruct (in_dec String.string_dec name pattern_names) as [Hin|Hout];
        [exact Hin|].
      rewrite (Hmiss name Hout) in Hsome. now destruct Hsome.
    + unfold pattern_names. cbn.
      intros [<-|[<-|[<-|[<-|[<-|[<-|[]]]]]]]; eexists; reflexivity.
  - intros name Hname. unfold dict_getitem. now rewrite (Hmiss name Hname).
Qed.

Lemma datasets_lookup_witness :
  dict_getitem (datasets Replay.rng Replay.random Replay.cos Replay.sin)
    "spiral" = Raises (KeyError "spiral")
  /\ dict_getitem (datasets Replay.rng Replay.random Replay.cos Replay.sin)
       "Foo" = Raises (KeyError "Foo").
Proof.
  destruct (datasets_lookup Replay.rng Replay.random Replay.cos Replay.sin)
    as (_ & _ & _ & _ & _ & _ & _ & Hmiss).
  split; apply Hmiss; unfold pattern_names; cbn; intuition discriminate.
Defined.

(** C4 as stated fails: [datasets["Foo"]] raises [KeyError], and no
    exception of a class named UnknownPatternError. *)
Lemma unknown_name_raises_KeyError :
  dict_getitem (datasets Replay.rng Replay.random Replay.cos Replay.sin) "Foo"
  = Raises (KeyError "Foo")
  /\ ~ raises_class "UnknownPatternError"
        (dict_getitem (datasets Replay.rng Replay.random Replay.cos Replay.sin)
           "Foo").
Proof.
  assert (Hrun : dict_getitem
                   (datasets Replay.rng Replay.random Replay.cos Replay.sin)
                   "Foo" = Raises (KeyError "Foo")) by reflexivity.
  split; [exact Hrun|].
  intros (e & Hraise & Hclass). rewrite Hrun in Hraise.
  inversion Hraise; subst e. discriminate Hclass.
Qed.

(** [spiral(10)]: the first point of curve 0 has parameter
    [10.0 * (5 / 5) = 10.0], whatever [cos] and [sin] are. *)
Example spiral_10_first_point :
  forall (cos sin : float -> float),
  exists rest,
    spiral Replay.rng cos sin 10 []
    = (Returns
         (mkGraph 10
            ((10.0 * cos 10.0 / 20.0 + 0.5,
              10.0 * sin 10.0 / 20.0 + 0.5)%float :: rest)
            [0; 0; 0; 0; 0; 1; 1; 1; 1; 1]), []).
Proof. intros cos sin. eexists. vm_compute. reflexivity. Qed.

(** ** What a call to [make_pts] draws *)

Lemma draws_length {rng : Type} (random : rng -> float * rng) (k : nat) :
  forall s : rng, length (fst (draws random k s)) = k.
Proof.
  induction k as [|k IH]; intros s; cbn [draws]; [reflexivity|].
  destruct (random s) as [v s1]. specialize (IH s1).
  destruct (draws random k s1) as [vs s2]. cbn in *. now rewrite IH.
Qed.

Lemma draws_add {rng : Type} (random : rng -> float * rng) (j k : nat) :
  forall s : rng,
    draws random (j + k) s
    = (fst (draws random j s)
         ++ fst (draws random k (snd (draws random j s))),
       snd (draws random k (snd (draws random j s)))).
Proof.
  induction j as [|j IH]; intros s; cbn [draws Nat.add].
  - cbn. now destruct (draws random k s).
  - destruct (random s) as [v s1]. rewrite (IH s1).
    destruct (draws random j s1) as [vs s2]. reflexivity.
Qed.

Lemma pair_up_app (us vs : list float) :
  Nat.Even (length us) -> pair_up (us ++ vs) = pair_up us ++ pair_up vs.
Proof.
  intros [h Hh]. revert us Hh.
  induction h as [|h IH]; intros us Hh.
  - destruct us; [reflexivity | cbn in Hh; lia].
  - destruct us as [|a [|b us]]; cbn in Hh; try lia.
    cbn. f_equal. apply IH. lia.
Qed.

Lemma pair_up_length (vs : list float) (k : nat) :
  length vs = (2 * k)%nat -> length (pair_up vs) = k.
Proof.
  revert vs. induction k as [|k IH]; intros vs Hlen.
  - now destruct vs.
  - destruct vs as [|a [|b vs]]; cbn in Hlen; try lia.
    cbn. f_equal. apply IH. lia.
Qed.

Section Drawing.

Variable rng : Type.
Variable random : rng -> float * rng.

(** The sampling loop draws two values per round, whatever the
    iterated values are. *)
Lemma make_pts_loop_draws (l : list Z) :
  forall (acc : list point) (s : rng),
    foldM (fun X (_ : Z) =>
             bind (random_random rng random) (fun x_1 =>
             bind (random_random rng random) (fun x_2 =>
             ret (X ++ [(x_1, x_2)]))))
          l acc s
    = (Returns (acc ++ pair_up (fst (draws random (2 * length l) s))),
       snd (draws random (2 * length l) s)).
Proof.
  induction l as [|i l IH]; intros acc s.
  - cbn. now rewrite app_nil_r.
  - replace (2 * length (i :: l))%nat with (S (S (2 * length l))) by (cbn; lia).
    cbn [foldM draws]. rewrite !bind_run. unfold random_random at 1.
    destruct (random s) as [x_1 s1]. rewrite bind_run.
    unfold random_random at 1. destruct (random s1) as [x_2 s2].
    unfold ret at 1. cbv beta iota. rewrite IH.
    destruct (draws random (2 * length l) s2) as [vs s3].
    cbn. now rewrite <- app_assoc.
Qed.

Lemma make_pts_draws_eq (n : Z) (s : rng) :
  make_pts rng random n s
  = (Returns (pair_up (fst (draws random (2 * Z.to_nat n) s))),
     snd (draws random (2 * Z.to_nat n) s)).
Proof.
  unfold make_pts. rewrite make_pts_loop_draws, range_length.
  now replace (Z.to_nat (n - 0)) with (Z.to_nat n) by lia.
Qed.

(** A generator that samples and then labels point by point with [f],
    from what [make_pts] returns. *)
Lemma sampled_run_from (body : list Z -> point -> list Z) (f : point -> Z)
    (n : Z) (s s' : rng) (pts : list point) :
  (forall acc p, body acc p = acc ++ [f p]) ->
  make_pts rng random n s = (Returns pts, s') ->
  bind (make_pts rng random n)
       (fun X => ret (mkGraph n X (fold_left body X []))) s
  = (Returns (mkGraph n pts (map f pts)), s').
Proof.
  intros Hbody Hrun. rewrite (bind_returns _ _ _ _ _ Hrun). unfold ret.
  now rewrite (append_loop_map body f Hbody).
Qed.

End Drawing.

(** X1: [make_pts(N)] calls [random.random()] exactly [2 * max(0, N)]
    times and pairs the values in the order drawn: point [k] is
    (draw [2k], draw [2k+1]); it never raises and leaves the generator in
    the state after those draws. *)
Theorem make_pts_draws :
  forall (rng : Type) (random : rng -> float * rng) (n : Z) (s : rng),
    let vs := fst (draws random (2 * Z.to_nat n) s) in
    make_pts rng random n s
    = (Returns (pair_up vs), snd (draws random (2 * Z.to_nat n) s))
    /\ Z.of_nat (length vs) = 2 * Z.max 0 n
    /\ Z.of_nat (length (pair_up vs)) = Z.max 0 n
    /\ (forall (k : nat) (a b : float),
          vs !! (2 * k)%nat = Some a -> vs !! (2 * k + 1)%nat = Some b ->
          pair_up vs !! k = Some (a, b)).
Proof.
  intros rng random n s vs.
  assert (Hlen : length vs = (2 * Z.to_nat n)%nat) by apply draws_length.
  split; [apply make_pts_draws_eq|]. split; [lia|].
  split; [rewrite (pair_up_length vs (Z.to_nat n) Hlen); lia|].
  clear Hlen. generalize vs. clear vs. intros vs k. revert vs.
  induction k as [|k IH]; intros vs a b Ha Hb.
  - destruct vs as [|a' [|b' vs]]; cbn in *; congruence.
  - destruct vs as [|a' [|b' vs]]; try discriminate.
    replace (2 * S k)%nat with (S (S (2 * k))) in Ha by lia.
    replace (2 * S k + 1)%nat with (S (S (2 * k + 1))) in Hb by lia.
    cbn in *. now apply IH.
Qed.

Lemma make_pts_add_eq {rng : Type} (random : rng -> float * rng) (a b : Z)
    (s : rng) :
  0 <= a -> 0 <= b ->
  exists pa s1 pb s2,
    make_pts rng random a s = (Returns pa, s1)
    /\ make_pts rng random b s1 = (Returns pb, s2)
    /\ make_pts rng random (a + b) s = (Returns (pa ++ pb), s2).
Proof.
  intros Ha Hb.
  eexists _, _, _, _. split; [apply make_pts_draws_eq|].
  split; [apply make_pts_draws_eq|]. rewrite make_pts_draws_eq.
  replace (2 * Z.to_nat (a + b))%nat
    with (2 * Z.to_nat a + 2 * Z.to_nat b)%nat by lia.
  rewrite draws_add. cbn [fst snd]. rewrite pair_up_app; [reflexivity|].
  rewrite draws_length. now exists (Z.to_nat a).
Qed.

(** X2: sampling composes: for [a, b >= 0], [make_pts(a + b)] returns the
    points of [make_pts(a)] followed by those of a second call
    [make_pts(b)] made right after it, and leaves the generator where
    that second call does. *)
Theorem make_pts_add :
  forall (rng : Type) (random : rng -> float * rng) (a b : Z) (s : rng),
    0 <= a -> 0 <= b ->
    exists pa s1 pb s2,
      make_pts rng random a s = (Returns pa, s1)
      /\ make_pts rng random b s1 = (Returns pb, s2)
      /\ make_pts rng random (a + b) s = (Returns (pa ++ pb), s2)
      /\ Z.of_nat (length pa) = a /\ Z.of_nat (length pb) = b.
Proof.
  intros rng random a b s Ha Hb.
  destruct (make_pts_add_eq random a b s Ha Hb)
    as (pa & s1 & pb & s2 & Hrun_a & Hrun_b & Hrun_ab).
  exists pa, s1, pb, s2. repeat (split; [assumption|]).
  destruct (make_pts_returns rng random a s) as (pa' & t & Ha' & Hlen_a).
  destruct (make_pts_returns rng random b s1) as (pb' & t' & Hb' & Hlen_b).
  rewrite Hrun_a in Ha'. rewrite Hrun_b in Hb'.
  inversion Ha'; inversion Hb'; subst. lia.
Qed.

Lemma make_pts_add_witness :
  exists pa s1 pb s2,
    make_pts Replay.rng Replay.random 1 [0.1; 0.2; 0.3; 0.4; 0.5; 0.6; 0.7]%float
    = (Returns pa, s1)
    /\ make_pts Replay.rng Replay.random 2 s1 = (Returns pb, s2)
    /\ make_pts Replay.rng Replay.random (1 + 2)
         [0.1; 0.2; 0.3; 0.4; 0.5; 0.6; 0.7]%float
       = (Returns (pa ++ pb), s2)
    /\ pa ++ pb = [(0.1, 0.2); (0.3, 0.4); (0.5, 0.6)]%float
    /\ s2 = [0.7]%float.
Proof.
  destruct (make_pts_add Replay.rng Replay.random 1 2
              [0.1; 0.2; 0.3; 0.4; 0.5; 0.6; 0.7]%float)
    as (pa & s1 & pb & s2 & Ha & Hb & Hab & _); [lia | lia |].
  exists pa, s1, pb, s2. split; [exact Ha|]. split; [exact Hb|].
  split; [exact Hab|].
  assert (Hval : make_pts Replay.rng Replay.random (1 + 2)
                   [0.1; 0.2; 0.3; 0.4; 0.5; 0.6; 0.7]%float
                 = (Returns [(0.1, 0.2); (0.3, 0.4); (0.5, 0.6)]%float,
                    [0.7]%float)) by (vm_compute; reflexivity).
  rewrite Hab in Hval. inversion Hval as [[Hpts Hs]]. split; reflexivity.
Defined.

(** ** The five sampled generators, from what [make_pts] returns *)

Section SampledShape.

Variable rng : Type.
Variable random : rng -> float * rng.

Lemma simple_sampled_by :
  sampled_by random (simple rng random)
    (fun '(x_1, _) => if (x_1 <? 0.5)%float then 1 else 0).
Proof.
  intros n s s' pts Hrun. apply (sampled_run_from rng random); [|exact Hrun].
  now intros acc [x_1 x_2].
Qed.

Lemma diag_sampled_by :
  sampled_by random (diag rng random)
    (fun '(x_1, x_2) => if (x_1 + x_2 <? 0.5)%float then 1 else 0).
Proof.
  intros n s s' pts Hrun. apply (sampled_run_from rng random); [|exact Hrun].
  now intros acc [x_1 x_2].
Qed.

Lemma split_sampled_by :
  sampled_by random (split rng random)
    (fun '(x_1, _) => if ((x_1 <? 0.2) || (0.8 <? x_1))%float then 1 else 0).
Proof.
  intros n s s' pts Hrun. apply (sampled_run_from rng random); [|exact Hrun].
  now intros acc [x_1 x_2].
Qed.

Lemma xor_sampled_by :
  sampled_by random (xor rng random)
    (fun '(x_1, x_2) =>
       if ((x_1 <? 0.5) && (0.5 <? x_2) || (0.5 <? x_1) && (x_2 <? 0.5))%float
       then 1 else 0).
Proof.
  intros n s s' pts Hrun. apply (sampled_run_from rng random); [|exact Hrun].
  now intros acc [x_1 x_2].
Qed.

Lemma circle_sampled_by :
  sampled_by random (circle rng random)
    (fun '(x_1, x_2) =>
       if (0.1 <? (x_1 - 0.5) * (x_1 - 0.5) + (x_2 - 0.5) * (x_2 - 0.5))%float
       then 1 else 0).
Proof.
  intros n s s' pts Hrun. apply (sampled_run_from rng random); [|exact Hrun].
  now intros acc [x_1 x_2].
Qed.

(** A generator of that shape, asked for more points from the same
    state, returns the same dataset extended. *)
Lemma sampled_by_extends (gen : Z -> M rng Graph) (f : point -> Z)
    (a b : Z) (s : rng) :
  sampled_by random gen f -> 0 <= a -> 0 <= b ->
  exists g g' s1 s2 pts labels,
    gen a s = (Returns g, s1)
    /\ gen (a + b) s = (Returns g', s2)
    /\ X g' = X g ++ pts /\ y g' = y g ++ labels
    /\ length pts = Z.to_nat b /\ length labels = Z.to_nat b.
Proof.
  intros Hgen Ha Hb.
  destruct (make_pts_add_eq random a b s Ha Hb)
    as (pa & s1 & pb & s2 & Hrun_a & Hrun_b & Hrun_ab).
  exists (mkGraph a pa (map f pa)), (mkGraph (a + b) (pa ++ pb)
                                        (map f (pa ++ pb))).
  exists s1, s2, pb, (map f pb).
  split; [exact (Hgen _ _ _ _ Hrun_a)|].
  split; [exact (Hgen _ _ _ _ Hrun_ab)|]. cbn [X y].
  split; [reflexivity|]. split; [apply map_app|].
  rewrite length_map. rewrite make_pts_draws_eq in Hrun_b.
  inversion Hrun_b as [[Hpb Hs]].
  split; apply pair_up_length, draws_length.
Qed.

(** Two runs of a generator of that shape give equal labels to equal
    points, wherever they occur. *)
Lemma sampled_by_pointwise (gen : Z -> M rng Graph) (f : point -> Z)
    (n n' : Z) (s s1 s' s1' : rng) (g g' : Graph) (i j : nat) (p : point) :
  sampled_by random gen f ->
  gen n s = (Returns g, s1) -> gen n' s' = (Returns g', s1') ->
  X g !! i = Some p -> X g' !! j = Some p ->
  y g !! i = Some (f p) /\ y g' !! j = Some (f p).
Proof.
  intros Hgen Hrun Hrun' Hi Hj.
  destruct (make_pts_returns rng random n s) as (pts & t & Hpts & _).
  destruct (make_pts_returns rng random n' s') as (pts' & t' & Hpts' & _).
  rewrite (Hgen _ _ _ _ Hpts) in Hrun.
  rewrite (Hgen _ _ _ _ Hpts') in Hrun'.
  inversion Hrun; subst g. inversion Hrun'; subst g'. cbn [X y] in *.
  now rewrite !list_lookup_fmap, Hi, Hj.
Qed.

End SampledShape.

(** X3: the five sampled generators differ in the labels only: from one
    and the same generator state each returns, as [X], the very points
    [make_pts(N)] returns from that state, with [N] as count, and leaves
    the generator in the state [make_pts] leaves it in. *)
Theorem sampled_generators_share_points :
  forall (rng : Type) (random : rng -> float * rng) (n : Z) (s : rng),
  exists pts s',
    make_pts rng random n s = (Returns pts, s')
    /\ (forall gen,
          In gen [simple rng random; diag rng random; split rng random;
                  xor rng random; circle rng random] ->
          exists labels,
            gen n s = (Returns (mkGraph n pts labels), s')
            /\ length labels = length pts).
Proof.
  intros rng random n s.
  destruct (make_pts_returns rng random n s) as (pts & s' & Hrun & _).
  exists pts, s'. split; [exact Hrun|].
  intros gen [<-|[<-|[<-|[<-|[<-|[]]]]]]; eexists; split;
    try apply length_map.
  - exact (simple_sampled_by rng random _ _ _ _ Hrun).
  - exact (diag_sampled_by rng random _ _ _ _ Hrun).
  - exact (split_sampled_by rng random _ _ _ _ Hrun).
  - exact (xor_sampled_by rng random _ _ _ _ Hrun).
  - exact (circle_sampled_by rng random _ _ _ _ Hrun).
Qed.

(** X4: asking for more points extends the dataset: for [a, b >= 0] and
    one and the same generator state, the points and the labels of
    [gen(a + b)] are those of [gen(a)], in the same order, followed by
    [b] more, for each of the five sampled generators. *)
Theorem sampled_generators_extend :
  forall (rng : Type) (random : rng -> float * rng) (a b : Z) (s : rng),
    0 <= a -> 0 <= b ->
    forall gen,
      In gen [simple rng random; diag rng random; split rng random;
              xor rng random; circle rng random] ->
      exists g g' s1 s2 pts labels,
        gen a s = (Returns g, s1)
        /\ gen (a + b) s = (Returns g', s2)
        /\ X g' = X g ++ pts /\ y g' = y g ++ labels
        /\ length pts = Z.to_nat b /\ length labels = Z.to_nat b.
Proof.
  intros rng random a b s Ha Hb gen [<-|[<-|[<-|[<-|[<-|[]]]]]].
  - exact (sampled_by_extends rng random _ _ a b s
             (simple_sampled_by rng random) Ha Hb).
  - exact (sampled_by_extends rng random _ _ a b s
             (diag_sampled_by rng random) Ha Hb).
  - exact (sampled_by_extends rng random _ _ a b s
             (split_sampled_by rng random) Ha Hb).
  - exact (sampled_by_extends rng random _ _ a b s
             (xor_sampled_by rng random) Ha Hb).
  - exact (sampled_by_extends rng random _ _ a b s
             (circle_sampled_by rng random) Ha Hb).
Qed.

Lemma sampled_generators_extend_witness :
  exists g g' s1 s2 pts labels,
    xor Replay.rng Replay.random 1 [0.2; 0.8; 0.9; 0.9; 0.7; 0.1]%float
    = (Returns g, s1)
    /\ xor Replay.rng Replay.random (1 + 2)
         [0.2; 0.8; 0.9; 0.9; 0.7; 0.1]%float
       = (Returns g', s2)
    /\ X g' = X g ++ pts /\ y g' = y g ++ labels
    /\ length pts = 2%nat /\ length labels = 2%nat.
Proof.
  apply (sampled_generators_extend Replay.rng Replay.random 1 2
           [0.2; 0.8; 0.9; 0.9; 0.7; 0.1]%float); [lia | lia |].
  cbn. auto.
Defined.

(** X5: a label depends on its own point only: two datasets returned by
    the same sampled generator, for any counts and generator states, carry
    the same label wherever they carry the same point. *)
Theorem labels_are_pointwise :
  forall (rng : Type) (random : rng -> float * rng) (gen : Z -> M rng Graph),
    In gen [simple rng random; diag rng random; split rng random;
            xor rng random; circle rng random] ->
    forall (n n' : Z) (s s1 s' s1' : rng) (g g' : Graph) (i j : nat)
           (p : point),
      gen n s = (Returns g, s1) -> gen n' s' = (Returns g', s1') ->
      X g !! i = Some p -> X g' !! j = Some p ->
      exists l, y g !! i = Some l /\ y g' !! j = Some l.
Proof.
  intros rng random gen [<-|[<-|[<-|[<-|[<-|[]]]]]]
         n n' s s1 s' s1' g g' i j p Hrun Hrun' Hi Hj;
    eexists.
  - exact (sampled_by_pointwise rng random _ _ _ _ _ _ _ _ _ _ _ _ _
             (simple_sampled_by rng random) Hrun Hrun' Hi Hj).
  - exact (sampled_by_pointwise rng random _ _ _ _ _ _ _ _ _ _ _ _ _
             (diag_sampled_by rng random) Hrun Hrun' Hi Hj).
  - exact (sampled_by_pointwise rng random _ _ _ _ _ _ _ _ _ _ _ _ _
             (split_sampled_by rng random) Hrun Hrun' Hi Hj).
  - exact (sampled_by_pointwise rng random _ _ _ _ _ _ _ _ _ _ _ _ _
             (xor_sampled_by rng random) Hrun Hrun' Hi Hj).
  - exact (sampled_by_pointwise rng random _ _ _ _ _ _ _ _ _ _ _ _ _
             (circle_sampled_by rng random) Hrun Hrun' Hi Hj).
Qed.

Lemma labels_are_pointwise_witness :
  exists g g' l,
    fst (circle Replay.rng Replay.random 1 [0.9; 0.9]%float) = Returns g
    /\ fst (circle Replay.rng Replay.random 2 [0.5; 0.5; 0.9; 0.9]%float)
       = Returns g'
    /\ y g !! 0%nat = Some l /\ y g' !! 1%nat = Some l.
Proof.
  destruct (circle Replay.rng Replay.random 1 [0.9; 0.9]%float)
    as [[g|e] s1] eqn:Hrun; [|vm_compute in Hrun; discriminate].
  destruct (circle Replay.rng Replay.random 2 [0.5; 0.5; 0.9; 0.9]%float)
    as [[g'|e] s1'] eqn:Hrun'; [|vm_compute in Hrun'; discriminate].
  assert (HX : X g = [(0.9, 0.9)]%float).
  { pose proof Hrun as Hval. vm_compute in Hval. now inversion Hval. }
  assert (HX' : X g' = [(0.5, 0.5); (0.9, 0.9)]%float).
  { pose proof Hrun' as Hval. vm_compute in Hval. now inversion Hval. }
  destruct (labels_are_pointwise Replay.rng Replay.random
              (circle Replay.rng Replay.random)
              ltac:(cbn; auto 10) 1 2 _ _ _ _ g g' 0%nat 1%nat
              (0.9, 0.9)%float Hrun Hrun')
    as (l & Hl & Hl'); [now rewrite HX | now rewrite HX' |].
  exists g, g', l. auto.
Defined.

(** ** Points in the unit square *)

Lemma draws_Forall {rng : Type} (random : rng -> float * rng)
    (P : float -> Prop) :
  (forall s, P (fst (random s))) ->
  forall (k : nat) (s : rng), Forall P (fst (draws random k s)).
Proof.
  intros HP k. induction k as [|k IH]; intros s; cbn [draws].
  - constructor.
  - pose proof (HP s) as Hv. destruct (random s) as [v s1].
    specialize (IH s1). destruct (draws random k s1) as [vs s2].
    cbn in *. now constructor.
Qed.

Lemma pair_up_Forall (P : float -> Prop) (vs : list float) :
  Forall P vs -> Forall (fun '(a, b) => P a /\ P b) (pair_up vs).
Proof.
  revert vs. fix IH 1. intros [|a [|b vs]] Hvs; cbn; try constructor.
  - inversion Hvs as [|? ? Ha Hvs']. inversion Hvs' as [|? ? Hb Hvs''].
    now split.
  - inversion Hvs as [|? ? Ha Hvs']. inversion Hvs' as [|? ? Hb Hvs''].
    now apply IH.
Qed.

(** X6: when every value of [random.random()] lies in [0.0, 1.0), every
    point of [make_pts], and so of each of the five sampled generators,
    lies in the unit square: both coordinates are in [0.0, 1.0). *)
Theorem points_in_unit_square :
  forall (rng : Type) (random : rng -> float * rng),
    (forall s, in_unit_interval (fst (random s))) ->
    forall (n : Z) (s : rng),
      let inside (pts : list point) :=
        Forall (fun '(x1, x2) => in_unit_interval x1 /\ in_unit_interval x2)
               pts in
      returns (make_pts rng random n) s inside
      /\ (forall gen,
            In gen [simple rng random; diag rng random; split rng random;
                    xor rng random; circle rng random] ->
            returns (gen n) s (fun g => inside (X g))).
Proof.
  intros rng random Hunit n s inside.
  assert (Hpts : inside (pair_up (fst (draws random (2 * Z.to_nat n) s))))
    by now apply pair_up_Forall, draws_Forall.
  pose proof (make_pts_draws_eq rng random n s) as Hrun.
  split; [eexists _, _; split; [exact Hrun | exact Hpts]|].
  intros gen [<-|[<-|[<-|[<-|[<-|[]]]]]]; eexists _, _.
  - split; [exact (simple_sampled_by rng random _ _ _ _ Hrun) | exact Hpts].
  - split; [exact (diag_sampled_by rng random _ _ _ _ Hrun) | exact Hpts].
  - split; [exact (split_sampled_by rng random _ _ _ _ Hrun) | exact Hpts].
  - split; [exact (xor_sampled_by rng random _ _ _ _ Hrun) | exact Hpts].
  - split; [exact (circle_sampled_by rng random _ _ _ _ Hrun) | exact Hpts].
Qed.

Lemma points_in_unit_square_witness :
  returns (make_pts Alternating.rng Alternating.random 3) false
    (Forall (fun '(x1, x2) => in_unit_interval x1 /\ in_unit_interval x2)).
Proof.
  apply (points_in_unit_square Alternating.rng Alternating.random).
  intros [|]; split; reflexivity.
Defined.

(** ** The order of binary64 values *)

Lemma SFcompare_antisym (a b : spec_float) :
  SFcompare b a = option_map CompOpp (SFcompare a b).
Proof.
  destruct a as [sa|sa| |sa ma ea], b as [sb|sb| |sb mb eb]; cbn;
    try reflexivity; try (now destruct sa); try (now destruct sb);
    try (now destruct sa, sb).
  destruct sa, sb; cbn; try reflexivity;
    rewrite (Z.compare_antisym ea eb); destruct (ea ?= eb); cbn;
    try reflexivity;
    pose proof (Pos.compare_cont_antisym ma mb Eq) as Hm; cbn in Hm;
    rewrite <- Hm; now destruct (Pos.compare_cont Eq ma mb).
Qed.

Lemma SFcompare_None (a b : spec_float) :
  SFcompare a b = None -> a = S754_nan \/ b = S754_nan.
Proof.
  destruct a as [sa|sa| |sa ma ea], b as [sb|sb| |sb mb eb]; cbn;
    auto; discriminate.
Qed.

Lemma not_nan_Prim2SF (x : float) :
  is_nan x = false -> Prim2SF x <> S754_nan.
Proof.
  unfold is_nan. rewrite FloatAxioms.eqb_spec. intros Hx Hnan.
  rewrite Hnan in Hx. discriminate Hx.
Qed.

(** Two values that are not NaN compare one of three ways. *)
Lemma float_order (x c : float) :
  is_nan x = false -> is_nan c = false ->
  (c <=? x)%float = negb (x <? c)%float
  /\ (x <=? c)%float = negb (c <? x)%float
  /\ (c <? x)%float = negb (x <? c)%float && negb (x =? c)%float.
Proof.
  intros Hx Hc. apply not_nan_Prim2SF in Hx, Hc.
  rewrite !FloatAxioms.leb_spec, !FloatAxioms.ltb_spec, FloatAxioms.eqb_spec.
  unfold SFleb, SFltb, SFeqb.
  rewrite (SFcompare_antisym (Prim2SF x) (Prim2SF c)).
  destruct (SFcompare (Prim2SF x) (Prim2SF c)) as [[| |]|] eqn:Hcmp;
    cbn; auto.
  destruct (SFcompare_None _ _ Hcmp); contradiction.
Qed.

(** ** The classes of the docstrings *)

Lemma sampled_by_Forall2 {rng : Type} (random : rng -> float * rng)
    (gen : Z -> M rng Graph) (f : point -> Z) (P : point -> Z -> Prop) :
  sampled_by random gen f -> (forall p, P p (f p)) ->
  forall (n : Z) (s : rng),
    returns (gen n) s (fun g => Forall2 P (X g) (y g)).
Proof.
  intros Hgen HP n s.
  destruct (make_pts_returns rng random n s) as (pts & s' & Hrun & _).
  eexists _, _. split; [exact (Hgen _ _ _ _ Hrun)|]. cbn [X y].
  now apply Forall2_map_label.
Qed.

Lemma label_1_iff (b : bool) : (if b then 1 else 0) = 1 <-> b = true.
Proof. destruct b; split; intros H; try reflexivity; discriminate H. Qed.

Lemma label_0_iff (b : bool) : (if b then 1 else 0) = 0 <-> negb b = true.
Proof. destruct b; split; intros H; try reflexivity; discriminate H. Qed.

(** X7: [simple] labels as its docstring says: in every dataset it
    returns, a point whose [x1] is not NaN is in class 1 exactly when
    [x1 < 0.5] and in class 0 exactly when [x1 >= 0.5]. *)
Theorem simple_classes :
  forall (rng : Type) (random : rng -> float * rng) (n : Z) (s : rng),
    returns (simple rng random n) s (fun g =>
      Forall2 (fun '(x1, _) l =>
                 is_nan x1 = false ->
                 (l = 1 <-> (x1 <? 0.5)%float = true)
                 /\ (l = 0 <-> (0.5 <=? x1)%float = true))
              (X g) (y g)).
Proof.
  intros rng random. apply (sampled_by_Forall2 random _ _ _
                              (simple_sampled_by rng random)).
  intros [x1 x2] Hx1.
  destruct (float_order x1 0.5 Hx1 eq_refl) as (-> & _ & _).
  split; [apply label_1_iff | apply label_0_iff].
Qed.

Lemma simple_classes_witness :
  exists g s',
    simple Replay.rng Replay.random 2 [0.5; 0.1; 0.3; 0.1]%float
    = (Returns g, s')
    /\ X g = [(0.5, 0.1); (0.3, 0.1)]%float
    /\ (forall l, y g !! 0%nat = Some l -> l = 0)
    /\ (forall l, y g !! 1%nat = Some l -> l = 1).
Proof.
  destruct (simple_classes Replay.rng Replay.random 2
              [0.5; 0.1; 0.3; 0.1]%float) as (g & s' & Hrun & Hall).
  assert (HX : X g = [(0.5, 0.1); (0.3, 0.1)]%float).
  { pose proof Hrun as Hval. vm_compute in Hval. now inversion Hval. }
  exists g, s'. split; [exact Hrun|]. split; [exact HX|].
  rewrite HX in Hall. split; intros l Hl.
  - apply (Forall2_lookup_lr _ _ _ 0%nat _ _ Hall eq_refl Hl eq_refl).
    reflexivity.
  - apply (Forall2_lookup_lr _ _ _ 1%nat _ _ Hall eq_refl Hl eq_refl).
    reflexivity.
Defined.

(** X8: [diag] labels as its docstring says: a point whose sum
    [x1 + x2] is not NaN is in class 1 exactly when [x1 + x2 < 0.5] and
    in class 0 exactly when [x1 + x2 >= 0.5]. *)
Theorem diag_classes :
  forall (rng : Type) (random : rng -> float * rng) (n : Z) (s : rng),
    returns (diag rng random n) s (fun g =>
      Forall2 (fun '(x1, x2) l =>
                 is_nan (x1 + x2) = false ->
                 (l = 1 <-> (x1 + x2 <? 0.5)%float = true)
                 /\ (l = 0 <-> (0.5 <=? x1 + x2)%float = true))
              (X g) (y g)).
Proof.
  intros rng random. apply (sampled_by_Forall2 random _ _ _
                              (diag_sampled_by rng random)).
  intros [x1 x2] Hsum.
  destruct (float_order (x1 + x2) 0.5 Hsum eq_refl) as (-> & _ & _).
  split; [apply label_1_iff | apply label_0_iff].
Qed.

Lemma diag_classes_witness :
  exists g s',
    diag Replay.rng Replay.random 2 [0.25; 0.25; 0.1; 0.1]%float
    = (Returns g, s')
    /\ X g = [(0.25, 0.25); (0.1, 0.1)]%float
    /\ (forall l, y g !! 0%nat = Some l -> l = 0)
    /\ (forall l, y g !! 1%nat = Some l -> l = 1).
Proof.
  destruct (diag_classes Replay.rng Replay.random 2
              [0.25; 0.25; 0.1; 0.1]%float) as (g & s' & Hrun & Hall).
  assert (HX : X g = [(0.25, 0.25); (0.1, 0.1)]%float).
  { pose proof Hrun as Hval. vm_compute in Hval. now inversion Hval. }
  exists g, s'. split; [exact Hrun|]. split; [exact HX|].
  rewrite HX in Hall. split; intros l Hl.
  - apply (Forall2_lookup_lr _ _ _ 0%nat _ _ Hall eq_refl Hl eq_refl).
    reflexivity.
  - apply (Forall2_lookup_lr _ _ _ 1%nat _ _ Hall eq_refl Hl eq_refl).
    reflexivity.
Defined.

(** X9: [split] labels as its docstring says: a point whose [x1] is not
    NaN is in class 1 exactly when [x1 < 0.2 or x1 > 0.8] and in class 0
    exactly when [0.2 <= x1 <= 0.8]. *)
Theorem split_classes :
  forall (rng : Type) (random : rng -> float * rng) (n : Z) (s : rng),
    returns (split rng random n) s (fun g =>
      Forall2 (fun '(x1, _) l =>
                 is_nan x1 = false ->
                 (l = 1 <->
                  (x1 <? 0.2)%float = true \/ (0.8 <? x1)%float = true)
                 /\ (l = 0 <->
                     (0.2 <=? x1)%float = true /\ (x1 <=? 0.8)%float = true))
              (X g) (y g)).
Proof.
  intros rng random. apply (sampled_by_Forall2 random _ _ _
                              (split_sampled_by rng random)).
  intros [x1 x2] Hx1.
  destruct (float_order x1 0.2 Hx1 eq_refl) as (-> & _ & _).
  destruct (float_order x1 0.8 Hx1 eq_refl) as (_ & -> & _).
  rewrite label_1_iff, label_0_iff, negb_orb, orb_true_iff, andb_true_iff.
  split; reflexivity.
Qed.

Lemma split_classes_witness :
  exists g s',
    split Replay.rng Replay.random 2 [0.8; 0.1; 0.9; 0.1]%float
    = (Returns g, s')
    /\ X g = [(0.8, 0.1); (0.9, 0.1)]%float
    /\ (forall l, y g !! 0%nat = Some l -> l = 0)
    /\ (forall l, y g !! 1%nat = Some l -> l = 1).
Proof.
  destruct (split_classes Replay.rng Replay.random 2
              [0.8; 0.1; 0.9; 0.1]%float) as (g & s' & Hrun & Hall).
  assert (HX : X g = [(0.8, 0.1); (0.9, 0.1)]%float).
  { pose proof Hrun as Hval. vm_compute in Hval. now inversion Hval. }
  exists g, s'. split; [exact Hrun|]. split; [exact HX|].
  rewrite HX in Hall. split; intros l Hl.
  - apply (Forall2_lookup_lr _ _ _ 0%nat _ _ Hall eq_refl Hl eq_refl).
    split; reflexivity.
  - apply (Forall2_lookup_lr _ _ _ 1%nat _ _ Hall eq_refl Hl eq_refl).
    right. reflexivity.
Defined.

(** X10: [circle] separates by the squared distance to (0.5, 0.5): with
    [d2 = dx*dx + dy*dy] not NaN, a point is in class 1 exactly when
    [d2 > 0.1] and in class 0 exactly when [d2 <= 0.1]. *)
Theorem circle_classes :
  forall (rng : Type) (random : rng -> float * rng) (n : Z) (s : rng),
    returns (circle rng random n) s (fun g =>
      Forall2 (fun '(x1, x2) l =>
                 let d2 := ((x1 - 0.5) * (x1 - 0.5)
                            + (x2 - 0.5) * (x2 - 0.5))%float in
                 is_nan d2 = false ->
                 (l = 1 <-> (0.1 <? d2)%float = true)
                 /\ (l = 0 <-> (d2 <=? 0.1)%float = true))
              (X g) (y g)).
Proof.
  intros rng random. apply (sampled_by_Forall2 random _ _ _
                              (circle_sampled_by rng random)).
  intros [x1 x2] d2 Hd2.
  destruct (float_order d2 0.1 Hd2 eq_refl) as (_ & -> & _).
  split; [apply label_1_iff | apply label_0_iff].
Qed.

Lemma circle_classes_witness :
  exists g s',
    circle Replay.rng Replay.random 2 [0.5; 0.75; 0.0; 0.0]%float
    = (Returns g, s')
    /\ X g = [(0.5, 0.75); (0.0, 0.0)]%float
    /\ (forall l, y g !! 0%nat = Some l -> l = 0)
    /\ (forall l, y g !! 1%nat = Some l -> l = 1).
Proof.
  destruct (circle_classes Replay.rng Replay.random 2
              [0.5; 0.75; 0.0; 0.0]%float) as (g & s' & Hrun & Hall).
  assert (HX : X g = [(0.5, 0.75); (0.0, 0.0)]%float).
  { pose proof Hrun as Hval. vm_compute in Hval. now inversion Hval. }
  exists g, s'. split; [exact Hrun|]. split; [exact HX|].
  rewrite HX in Hall. split; intros l Hl.
  - apply (Forall2_lookup_lr _ _ _ 0%nat _ _ Hall eq_refl Hl eq_refl).
    reflexivity.
  - apply (Forall2_lookup_lr _ _ _ 1%nat _ _ Hall eq_refl Hl eq_refl).
    reflexivity.
Defined.

(** X11: [xor] is the exclusive or of the two half-plane tests: a point
    with neither coordinate NaN nor equal to 0.5 is in class 1 exactly
    when one, and only one, of [x1 < 0.5] and [x2 < 0.5] holds. *)
Theorem xor_is_exclusive_or :
  forall (rng : Type) (random : rng -> float * rng) (n : Z) (s : rng),
    returns (xor rng random n) s (fun g =>
      Forall2 (fun '(x1, x2) l =>
                 is_nan x1 = false -> is_nan x2 = false ->
                 (x1 =? 0.5)%float = false -> (x2 =? 0.5)%float = false ->
                 l = if xorb (x1 <? 0.5)%float (x2 <? 0.5)%float
                     then 1 else 0)
              (X g) (y g)).
Proof.
  intros rng random. apply (sampled_by_Forall2 random _ _ _
                              (xor_sampled_by rng random)).
  intros [x1 x2] Hx1 Hx2 Hne1 Hne2.
  destruct (float_order x1 0.5 Hx1 eq_refl) as (_ & _ & ->).
  destruct (float_order x2 0.5 Hx2 eq_refl) as (_ & _ & ->).
  rewrite Hne1, Hne2.
  now destruct (x1 <? 0.5)%float, (x2 <? 0.5)%float.
Qed.

Lemma xor_is_exclusive_or_witness :
  exists g s',
    xor Replay.rng Replay.random 2 [0.9; 0.2; 0.9; 0.7]%float
    = (Returns g, s')
    /\ X g = [(0.9, 0.2); (0.9, 0.7)]%float
    /\ (forall l, y g !! 0%nat = Some l -> l = 1)
    /\ (forall l, y g !! 1%nat = Some l -> l = 0).
Proof.
  destruct (xor_is_exclusive_or Replay.rng Replay.random 2
              [0.9; 0.2; 0.9; 0.7]%float) as (g & s' & Hrun & Hall).
  assert (HX : X g = [(0.9, 0.2); (0.9, 0.7)]%float).
  { pose proof Hrun as Hval. vm_compute in Hval. now inversion Hval. }
  exists g, s'. split; [exact Hrun|]. split; [exact HX|].
  rewrite HX in Hall. split; intros l Hl.
  - exact (Forall2_lookup_lr _ _ _ 0%nat _ _ Hall eq_refl Hl
             eq_refl eq_refl eq_refl eq_refl).
  - exact (Forall2_lookup_lr _ _ _ 1%nat _ _ Hall eq_refl Hl
             eq_refl eq_refl eq_refl eq_refl).
Defined.

(** ** The outcomes of [spiral] *)

Lemma range_In (a b i : Z) : a <= i < b -> In i (range a b).
Proof.
  intros Hi. unfold range. apply in_map_iff.
  exists (Z.to_nat (i - a)). split; [lia|]. apply in_seq. lia.
Qed.

Section SpiralOutcomes.

Variable rng : Type.
Variables cos sin : float -> float.

(** A comprehension fails with [e] as soon as one element does and
    the others return or fail with [e] too. *)
Lemma mapM_raises_at {A B : Type} (f : A -> M rng B) (e : exception)
    (s : rng) (l : list A) (a : A) :
  In a l -> f a s = (Raises e, s) ->
  (forall b, In b l ->
     (exists v, f b s = (Returns v, s)) \/ f b s = (Raises e, s)) ->
  mapM f l s = (Raises e, s).
Proof.
  intros Hin Ha. induction l as [|b l IH]; intros Hall; [destruct Hin|].
  destruct (Hall b (or_introl eq_refl)) as [(v & Hb)|Hb].
  - cbn [mapM]. rewrite (bind_returns _ _ _ _ _ Hb).
    destruct Hin as [->|Hin]; [rewrite Ha in Hb; discriminate Hb|].
    rewrite (bind_raises _ _ _ _ _
               (IH Hin (fun c Hc => Hall c (or_intror Hc)))).
    reflexivity.
  - now apply mapM_raises_head.
Qed.

(** An element of either comprehension, for a half that is not zero:
    it returns, or an index or the half is out of the float range. *)
Lemma spiral_element_cases (c : float) (u v : float -> float) (h i : Z)
    (s : rng) :
  h <> 0 ->
  let elt :=
    bind (float_of_int i) (fun a =>
    bind (truediv a h) (fun q =>
    bind (float_of_int i) (fun b =>
    bind (truediv b h) (fun r =>
    ret (u (c * q) + 0.5, v (c * r) + 0.5)%float)))) in
  (Z.abs i < DBL_OVERFLOW -> Z.abs h < DBL_OVERFLOW ->
   exists p, elt s = (Returns p, s))
  /\ (DBL_OVERFLOW <= Z.abs i \/ DBL_OVERFLOW <= Z.abs h ->
      elt s = (Raises OverflowError, s)).
Proof.
  intros Hh elt. split.
  - intros Hi Hlt. eexists. apply spiral_element; assumption.
  - intros Hbig. unfold elt.
    destruct (Z.lt_ge_cases (Z.abs i) DBL_OVERFLOW) as [Hi|Hi].
    + destruct Hbig as [Hbig|Hbig]; [lia|].
      rewrite (bind_returns _ _ _ _ _ (float_of_int_returns rng i s Hi)).
      apply bind_raises, truediv_overflow. exact Hbig.
    + apply bind_raises, float_of_int_raises. exact Hi.
Qed.

Lemma spiral_raises (n : Z) (s : rng) :
  0 < n / 2 -> DBL_OVERFLOW <= n / 2 + 4 ->
  spiral rng cos sin n s = (Raises OverflowError, s).
Proof.
  intros Hpos Hbig. unfold spiral. cbv zeta. change (5 + 0) with 5.
  apply bind_raises.
  apply (mapM_raises_at _ _ _ _ (n / 2 + 4)).
  - apply range_In. lia.
  - apply (spiral_element_cases 10.0 (fun t => (t * cos t / 20.0)%float)
             (fun t => (t * sin t / 20.0)%float) (n / 2) (n / 2 + 4) s);
      lia.
  - intros i Hi. apply range_bounds in Hi.
    destruct (spiral_element_cases 10.0 (fun t => (t * cos t / 20.0)%float)
                (fun t => (t * sin t / 20.0)%float) (n / 2) i s)
      as (Hret & Hraise); [lia|].
    destruct (Z.lt_ge_cases (Z.abs i) DBL_OVERFLOW) as [Hlt|Hge];
      [|right; apply Hraise; now left].
    destruct (Z.lt_ge_cases (Z.abs (n / 2)) DBL_OVERFLOW) as [Hlt'|Hge'];
      [left; now apply Hret | right; apply Hraise; now right].
Qed.

End SpiralOutcomes.

(** X12: [spiral] never raises [ZeroDivisionError] and never touches the
    random generator: for every [N] it returns a dataset when
    [N // 2 <= 0] or [N // 2 + 4] is below the overflow bound of
    [float()], and raises [OverflowError] otherwise, leaving the
    generator state as it was. *)
Theorem spiral_outcome :
  forall (rng : Type) (cos sin : float -> float) (n : Z) (s : rng),
    (n / 2 <= 0 \/ n / 2 + 4 < DBL_OVERFLOW ->
     exists g, spiral rng cos sin n s = (Returns g, s))
    /\ (0 < n / 2 -> DBL_OVERFLOW <= n / 2 + 4 ->
        spiral rng cos sin n s = (Raises OverflowError, s))
    /\ (forall o s',
          spiral rng cos sin n s = (o, s') ->
          s' = s /\ o <> Raises ZeroDivisionError).
Proof.
  intros rng cos sin n s. pose proof DBL_OVERFLOW_pos as Hpos.
  assert (Hret : n / 2 <= 0 \/ n / 2 + 4 < DBL_OVERFLOW ->
                 exists g, spiral rng cos sin n s = (Returns g, s)).
  { intros Hsmall. eexists. apply spiral_run. lia. }
  split; [exact Hret|]. split; [apply spiral_raises|].
  intros o s' Hrun.
  destruct (Z.lt_ge_cases (n / 2 + 4) DBL_OVERFLOW) as [Hlt|Hge].
  - destruct (Hret (or_intror Hlt)) as (g & Hg). rewrite Hg in Hrun.
    inversion Hrun; subst. split; [reflexivity | discriminate].
  - rewrite spiral_raises in Hrun by lia.
    inversion Hrun; subst. split; [reflexivity | discriminate].
Qed.

Lemma spiral_outcome_witness :
  (exists g, spiral Replay.rng Replay.cos Replay.sin 7 [0.5]%float
             = (Returns g, [0.5]%float))
  /\ spiral Replay.rng Replay.cos Replay.sin (2 * DBL_OVERFLOW - 4)
       [0.5]%float
     = (Raises OverflowError, [0.5]%float).
Proof.
  split.
  - destruct (spiral_outcome Replay.rng Replay.cos Replay.sin 7 [0.5]%float)
      as (Hret & _). apply Hret. right. reflexivity.
  - destruct (spiral_outcome Replay.rng Replay.cos Replay.sin
                (2 * DBL_OVERFLOW - 4) [0.5]%float) as (_ & Hraise & _).
    apply Hraise; [reflexivity|]. apply Z.leb_le. vm_compute. reflexivity.
Defined.

(** X13: an odd count gives the data of the even count below it: for
    even [N], [spiral(N + 1)] returns the points and labels of
    [spiral(N)], only with [N + 1] as count, and fails when [spiral(N)]
    fails, with the same exception. *)
Theorem spiral_odd_count :
  forall (rng : Type) (cos sin : float -> float) (n : Z) (s : rng),
    Z.even n = true ->
    (forall g s',
       spiral rng cos sin n s = (Returns g, s') ->
       spiral rng cos sin (n + 1) s
       = (Returns (mkGraph (n + 1) (X g) (y g)), s'))
    /\ (forall e s',
          spiral rng cos sin n s = (Raises e, s') ->
          spiral rng cos sin (n + 1) s = (Raises e, s')).
Proof.
  intros rng cos sin n s.
  intros Heven.
  assert (Hhalf : (n + 1) / 2 = n / 2).
  { apply Zeven_bool_iff in Heven. destruct (Zeven_ex n Heven) as (m & ->).
    Z.div_mod_to_equations. lia. }
  unfold spiral. cbv zeta. rewrite Hhalf. rewrite !bind_run.
  destruct (mapM _ (range (5 + 0) (5 + n / 2)) s) as [[c0|e0] s0].
  - rewrite !bind_run.
    destruct (mapM _ (range (5 + 0) (5 + n / 2)) s0) as [[c1|e1] s1].
    + unfold ret. split; [|discriminate].
      intros g s' Hg. inversion Hg; subst. reflexivity.
    + split; [discriminate|]. intros e s' He. exact He.
  - split; [discriminate|]. intros e s' He. exact He.
Qed.

Lemma spiral_odd_count_witness :
  exists g,
    spiral Replay.rng Replay.cos Replay.sin 6 [] = (Returns g, [])
    /\ spiral Replay.rng Replay.cos Replay.sin (6 + 1) []
       = (Returns (mkGraph (6 + 1) (X g) (y g)), [])
    /\ length (X g) = 6%nat.
Proof.
  destruct (spiral Replay.rng Replay.cos Replay.sin 6 [])
    as [[g|e] s'] eqn:Hrun; [|vm_compute in Hrun; discriminate].
  assert (Hs : s' = []).
  { pose proof Hrun as Hval. vm_compute in Hval. now inversion Hval. }
  assert (Hlen : length (X g) = 6%nat).
  { pose proof Hrun as Hval. vm_compute in Hval. now inversion Hval. }
  subst s'. exists g. split; [reflexivity|]. split; [|exact Hlen].
  destruct (spiral_odd_count Replay.rng Replay.cos Replay.sin 6 []
              eq_refl) as (Hret & _).
  exact (Hret g [] Hrun).
Defined.

(** ** Calling what the dictionary holds *)

Lemma sampled_by_well_formed {rng : Type} (random : rng -> float * rng)
    (gen : Z -> M rng Graph) (f : point -> Z) :
  sampled_by random gen f -> (forall p, is_label (f p)) ->
  forall (n : Z) (s s' : rng) (g : Graph),
    gen n s = (Returns g, s') ->
    N g = n /\ length (X g) = length (y g) /\ Forall is_label (y g).
Proof.
  intros Hgen Hf n s s' g Hrun.
  destruct (make_pts_returns rng random n s) as (pts & t & Hpts & _).
  rewrite (Hgen _ _ _ _ Hpts) in Hrun. inversion Hrun; subst g. cbn.
  split; [reflexivity|]. split; [now rewrite length_map|].
  now apply Forall_map_label.
Qed.

Lemma spiral_well_formed {rng : Type} (cos sin : float -> float)
    (n : Z) (s s' : rng) (g : Graph) :
  spiral rng cos sin n s = (Returns g, s') ->
  N g = n /\ length (X g) = length (y g) /\ Forall is_label (y g).
Proof.
  intros Hrun.
  destruct (spiral_shape _ _ _ _ _ _ _ Hrun) as (HN & HX & Hy).
  split; [exact HN|]. rewrite Hy. split.
  - now rewrite HX, length_app, !list_mul_length.
  - apply Forall_app. split; apply list_mul_Forall; [left | right]; reflexivity.
Qed.

(** X14: whatever [datasets[name]] holds can be called as a generator:
    a lookup that succeeds yields a function whose returned dataset has
    the requested [N] as count, as many labels as points, and labels 0
    or 1 only; and a lookup under one of the five sampled names yields
    a function that returns for every [N]. *)
Theorem datasets_dispatch :
  forall (rng : Type) (random : rng -> float * rng)
         (cos sin : float -> float) (name : string) (gen : Z -> M rng Graph),
    dict_getitem (datasets rng random cos sin) name = Returns gen ->
    (forall (n : Z) (s s' : rng) (g : Graph),
       gen n s = (Returns g, s') ->
       N g = n /\ length (X g) = length (y g) /\ Forall is_label (y g))
    /\ (name <> "Spiral"%string ->
        forall (n : Z) (s : rng), exists g s', gen n s = (Returns g, s')).
Proof.
  intros rng random cos sin name gen Hget. unfold dict_getitem in Hget.
  destruct (datasets rng random cos sin !! name) as [gen'|] eqn:Hlook;
    [|discriminate]. inversion Hget; subst gen'. clear Hget.
  unfold datasets in Hlook.
  repeat (rewrite lookup_insert in Hlook;
          destruct (decide (_ = name)) as [<-|?Hne]);
    try (rewrite lookup_empty in Hlook; discriminate Hlook);
    inversion Hlook; subst gen; (split; [|intros Hname n s]).
  - intros n s s' g. apply spiral_well_formed.
  - congruence.
  - apply (sampled_by_well_formed random _ _ (circle_sampled_by rng random)).
    intros [x1 x2]. apply if_is_label.
  - destruct (circle_run rng random n s) as (pts & s' & Hrun & _). eauto.
  - apply (sampled_by_well_formed random _ _ (xor_sampled_by rng random)).
    intros [x1 x2]. apply if_is_label.
  - destruct (xor_run rng random n s) as (pts & s' & Hrun & _). eauto.
  - apply (sampled_by_well_formed random _ _ (split_sampled_by rng random)).
    intros [x1 x2]. apply if_is_label.
  - destruct (split_run rng random n s) as (pts & s' & Hrun & _). eauto.
  - apply (sampled_by_well_formed random _ _ (diag_sampled_by rng random)).
    intros [x1 x2]. apply if_is_label.
  - destruct (diag_run rng random n s) as (pts & s' & Hrun & _). eauto.
  - apply (sampled_by_well_formed random _ _ (simple_sampled_by rng random)).
    intros [x1 x2]. apply if_is_label.
  - destruct (simple_run rng random n s) as (pts & s' & Hrun & _). eauto.
Qed.

Lemma datasets_dispatch_witness :
  exists gen g s',
    dict_getitem (datasets Replay.rng Replay.random Replay.cos Replay.sin)
      "Split" = Returns gen
    /\ gen 2 [0.1; 0.5; 0.5; 0.5]%float = (Returns g, s')
    /\ N g = 2 /\ length (X g) = length (y g) /\ Forall is_label (y g).
Proof.
  destruct (datasets_dispatch Replay.rng Replay.random Replay.cos Replay.sin
              "Split" (split Replay.rng Replay.random) eq_refl)
    as (Hwf & Hret).
  destruct (Hret ltac:(discriminate) 2 [0.1; 0.5; 0.5; 0.5]%float)
    as (g & s' & Hrun).
  exists (split Replay.rng Replay.random), g, s'.
  split; [reflexivity|]. split; [exact Hrun|]. exact (Hwf _ _ _ _ Hrun).
Defined.
